(** * Vendor-Connect: group-order aggregation, order numbering, bulk pricing

    A shallow embedding of the Mongoose model methods of the backend:

    - [GroupOrder.addParticipant], [GroupOrder.removeParticipant]
      (backend/models/GroupOrder.js),
    - the [pre('save')] hook of the Order schema (backend/models/Order.js),
    - [Product.getBulkPrice] (the Product model).

    A method of a document mutates [this] and completes either normally or by
    throwing; it is embedded as a function from the document to a completion
    and the document after the call. *)

From Stdlib Require Import ZArith QArith Qminmax Lia Lqa.
From Stdlib Require Import Strings.String Strings.Ascii Numbers.DecimalString.
From stdpp Require Import base tactics option list strings gmap.

(** ** Completions of a method call *)

(** How a JavaScript call ends: it returns, or it throws an error with a
    name. *)
Inductive completion : Type :=
  | Normal
  | Throw (name : string).

(** * Group orders *)

Module GroupOrder.

Local Open Scope Z_scope.

(** An ObjectId is compared through its [toString()], a 24-digit hexadecimal
    string. *)
Definition ObjectId : Type := string.

(** A [Date], as milliseconds since the epoch. *)
Definition Date : Type := Z.

(** The [status] enum of the schema. *)
Inductive Status : Type :=
  | active
  | target_reached
  | ordered
  | delivered
  | cancelled.

Global Instance Status_eq_dec : EqDecision Status.
Proof. solve_decision. Defined.

(** An element of the [participants] array. Quantities count units of the
    product: the [Number]s are integers. *)
Record Participant : Type := mkParticipant {
  vendor : ObjectId;
  quantity : Z;
  joinedAt : Date
}.

(** The fields of a group-order document the two methods read or write, and the
    two ([maxParticipants], [deadline]) the schema declares next to them. *)
Record GroupOrder : Type := mkGroupOrder {
  targetQuantity : Z;
  currentQuantity : Z;
  maxParticipants : Z;
  participants : list Participant;
  status : Status;
  deadline : Date
}.

Definition set_quantity (p : Participant) (q : Z) : Participant :=
  {| vendor := vendor p; quantity := q; joinedAt := joinedAt p |}.

(** The callback [p => p.vendor.toString() === vendorId.toString()]. *)
Definition isVendor (vendorId : ObjectId) (p : Participant) : Prop :=
  vendor p = vendorId.

Global Instance isVendor_dec vendorId p : Decision (isVendor vendorId p).
Proof. unfold isVendor. apply _. Defined.

(** [addParticipant(vendorId, quantity)]. [find] yields the first matching
    element, which is updated in place; otherwise an element is pushed, its
    [joinedAt] defaulting to [Date.now()], here [now]. *)
Definition addParticipant (now : Date) (vendorId : ObjectId) (qty : Z)
    (this : GroupOrder) : completion * GroupOrder :=
  let participants' :=
    match list_find (isVendor vendorId) (participants this) with
    | Some (i, existingParticipant) =>
        <[i := set_quantity existingParticipant
                 (quantity existingParticipant + qty)]> (participants this)
    | None =>
        participants this ++
          [{| vendor := vendorId; quantity := qty; joinedAt := now |}]
    end in
  let currentQuantity' := currentQuantity this + qty in
  let status' :=
    if (targetQuantity this <=? currentQuantity')
       && bool_decide (status this = active)
    then target_reached else status this in
  (Normal,
   {| targetQuantity := targetQuantity this;
      currentQuantity := currentQuantity';
      maxParticipants := maxParticipants this;
      participants := participants';
      status := status';
      deadline := deadline this |}).

(** [removeParticipant(vendorId)]. [findIndex] yields the first matching
    index or -1; [splice(participantIndex, 1)] deletes that element. *)
Definition removeParticipant (vendorId : ObjectId) (this : GroupOrder)
    : completion * GroupOrder :=
  match list_find (isVendor vendorId) (participants this) with
  | Some (participantIndex, p) =>
      let removedQuantity := quantity p in
      let currentQuantity' := currentQuantity this - removedQuantity in
      let status' :=
        if (currentQuantity' <? targetQuantity this)
           && bool_decide (status this = target_reached)
        then active else status this in
      (Normal,
       {| targetQuantity := targetQuantity this;
          currentQuantity := currentQuantity';
          maxParticipants := maxParticipants this;
          participants := delete participantIndex (participants this);
          status := status';
          deadline := deadline this |})
  | None => (Normal, this)
  end.

(** The document after a call, and how the call ended. *)
Definition after (r : completion * GroupOrder) : GroupOrder := snd r.
Definition outcome (r : completion * GroupOrder) : completion := fst r.

(** A call fails with the error [e] when it throws it. *)
Definition fails_with (r : completion * GroupOrder) (e : string) : Prop :=
  outcome r = Throw e.

(** The sum of the participants' quantities. *)
Definition total_quantity (ps : list Participant) : Z :=
  foldr (fun p acc => quantity p + acc) 0 ps.

(** The quantity invariant of the data model. *)
Definition quantity_consistent (g : GroupOrder) : Prop :=
  currentQuantity g = total_quantity (participants g).

(** The entries of a vendor in the array. *)
Definition entries_of (v : ObjectId) (ps : list Participant)
    : list Participant :=
  filter (isVendor v) ps.

(** A fresh group order: the schema defaults, no participant. *)
Definition fresh (target maxp : Z) (dl : Date) : GroupOrder :=
  {| targetQuantity := target; currentQuantity := 0; maxParticipants := maxp;
     participants := []; status := active; deadline := dl |}.

(** Two documents agree on participants, quantity and status. *)
Definition same_state (g g' : GroupOrder) : Prop :=
  participants g' = participants g /\
  currentQuantity g' = currentQuantity g /\
  status g' = status g.

(** The vendors of the entries, in the order of the array. *)
Definition vendors (ps : list Participant) : list ObjectId := vendor <$> ps.

(** The same document with another deadline. *)
Definition set_deadline (g : GroupOrder) (dl : Date) : GroupOrder :=
  {| targetQuantity := targetQuantity g; currentQuantity := currentQuantity g;
     maxParticipants := maxParticipants g; participants := participants g;
     status := status g; deadline := dl |}.

(** The same document with another cap. *)
Definition set_maxParticipants (g : GroupOrder) (cap : Z) : GroupOrder :=
  {| targetQuantity := targetQuantity g; currentQuantity := currentQuantity g;
     maxParticipants := cap; participants := participants g;
     status := status g; deadline := deadline g |}.

(** ** The virtuals and sequences of calls *)

(** The virtual [isTargetReached]. *)
Definition isTargetReached (this : GroupOrder) : bool :=
  targetQuantity this <=? currentQuantity this.

(** What [progressPercentage] can yield: a percentage, or, when the target is
    0, [NaN] (quantity 0) or minus infinity (quantity below 0). *)
Inductive Progress : Type :=
  | Percent (q : Q)
  | NotANumber
  | MinusInfinity.

(** The virtual [progressPercentage]:
    [Math.min((currentQuantity / targetQuantity) * 100, 100)], the quotient
    taken exactly. A positive quantity over a target of 0 is plus infinity,
    which [Math.min] caps at 100. *)
Definition progressPercentage (this : GroupOrder) : Progress :=
  if targetQuantity this =? 0 then
    if 0 <? currentQuantity this then Percent 100
    else if currentQuantity this =? 0 then NotANumber
    else MinusInfinity
  else
    Percent (Qmin (inject_Z (currentQuantity this)
                   / inject_Z (targetQuantity this) * 100) 100).

(** A call of one of the two methods on a group order. *)
Inductive Call : Type :=
  | Join (now : Date) (vendorId : ObjectId) (qty : Z)
  | Leave (vendorId : ObjectId).

Definition call (c : Call) (g : GroupOrder) : GroupOrder :=
  match c with
  | Join now v q => after (addParticipant now v q g)
  | Leave v => after (removeParticipant v g)
  end.

(** The calls of a list, one after the other. *)
Definition calls (cs : list Call) (g : GroupOrder) : GroupOrder :=
  foldl (fun g c => call c g) g cs.

(** A join brings at least one unit, as the schema asks of an entry
    ([min: 1]). *)
Definition at_least_one (c : Call) : Prop :=
  match c with
  | Join _ _ q => 1 <= q
  | Leave _ => True
  end.

(** The status says whether the target is met. *)
Definition status_agrees (g : GroupOrder) : Prop :=
  (status g = active -> currentQuantity g < targetQuantity g) /\
  (status g = target_reached -> targetQuantity g <= currentQuantity g).

(** What holds of a group order that was created with the defaults and then
    only joined and left. *)
Definition well_formed (g : GroupOrder) : Prop :=
  quantity_consistent g /\
  NoDup (vendors (participants g)) /\
  Forall (fun p => 1 <= quantity p) (participants g) /\
  (status g = active /\ currentQuantity g < targetQuantity g \/
   status g = target_reached /\ targetQuantity g <= currentQuantity g).

End GroupOrder.

(** * Orders and their numbers *)

Module Order.

Local Open Scope Z_scope.

(** ** The JavaScript values and string methods the hook uses *)

(** A [Number] that holds an integer, or [NaN]. *)
Inductive Number : Type :=
  | NaN
  | Num (z : Z).

(** [n + 1]. *)
Definition Number_succ (n : Number) : Number :=
  match n with
  | NaN => NaN
  | Num z => Num (z + 1)
  end.

(** [n.toString()] on an integer: its decimal digits, after a minus sign when
    it is negative. *)
Definition Number_toString (n : Number) : string :=
  match n with
  | NaN => "NaN"
  | Num z => NilZero.string_of_int (Z.to_int z)
  end.

(** The filler of [padStart]: the first [n] characters of [padString] repeated;
    [cur] is what is left of the current repetition. *)
Fixpoint pad_fill (n : nat) (cur padString : string) : string :=
  match n with
  | O => ""
  | S n' =>
      match cur with
      | String c rest => String c (pad_fill n' rest padString)
      | EmptyString =>
          match padString with
          | String c rest => String c (pad_fill n' rest padString)
          | EmptyString => ""
          end
      end
  end.

(** [s.padStart(targetLength, padString)]. *)
Definition padStart (targetLength : nat) (padString : string) (s : string)
    : string :=
  pad_fill (targetLength - String.length s) padString padString +:+ s.

(** [s.slice(start)]: a negative [start] counts from the end. *)
Definition slice (start : Z) (s : string) : string :=
  let len := Z.of_nat (String.length s) in
  let from := if start <? 0 then Z.max (len + start) 0 else Z.min start len in
  String.substring (Z.to_nat from) (Z.to_nat (len - from)) s.

(** White space that [parseInt] skips (the ASCII part of it). *)
Definition is_white_space (c : ascii) : bool :=
  let n := N_of_ascii c in
  ((9 <=? n) && (n <=? 13) || (n =? 32))%N.

Fixpoint trimStart (s : string) : string :=
  match s with
  | String c rest => if is_white_space c then trimStart rest else s
  | EmptyString => s
  end.

(** The value of a digit in a radix, if it is one. *)
Definition digit_value (radix : Z) (c : ascii) : option Z :=
  let n := Z.of_N (N_of_ascii c) in
  let v := if (48 <=? n) && (n <=? 57) then Some (n - 48)
           else if (97 <=? n) && (n <=? 122) then Some (n - 87)
           else if (65 <=? n) && (n <=? 90) then Some (n - 55)
           else None in
  match v with
  | Some d => if d <? radix then Some d else None
  | None => None
  end.

(** The longest prefix of digits, read in the radix; [acc] is [None] until a
    digit was read. *)
Fixpoint parse_digits (radix : Z) (acc : option Z) (s : string) : option Z :=
  match s with
  | String c rest =>
      match digit_value radix c with
      | Some d => parse_digits radix (Some (default 0 acc * radix + d)) rest
      | None => acc
      end
  | EmptyString => acc
  end.

(** [parseInt(s)], no radix given: white space, a sign, [0x] for radix 16,
    then digits up to the first character that is none; [NaN] without digit. *)
Definition parseInt (s : string) : Number :=
  let s1 := trimStart s in
  let '(sign, s2) :=
    match s1 with
    | String "-" rest => (-1, rest)
    | String "+" rest => (1, rest)
    | _ => (1, s1)
    end in
  let '(radix, s3) :=
    match s2 with
    | String "0" (String "x" rest) => (16, rest)
    | String "0" (String "X" rest) => (16, rest)
    | _ => (10, s2)
    end in
  match parse_digits radix None s3 with
  | Some v => Num (sign * v)
  | None => NaN
  end.

(** ** Documents and the collection *)

(** Of an order document the hook reads and writes [orderNumber] only; it is
    [None] while undefined. *)
Record Order : Type := mkOrder {
  orderNumber : option string
}.

(** The parts of [new Date()] the hook reads: [getFullYear()], [getMonth()]
    (from 0) and [getDate()]. *)
Record Date : Type := mkDate {
  getFullYear : Z;
  getMonth : Z;
  getDate : Z
}.

(** [!this.orderNumber]: undefined and the empty string are falsy. *)
Definition no_orderNumber (this : Order) : bool :=
  match orderNumber this with
  | None => true
  | Some s => bool_decide (s = "")
  end.

(** The filter [{orderNumber: new RegExp(`^VC${dateStr}`)}]: the pattern holds
    letters, digits and at most a minus sign, so it matches as a prefix. *)
Definition matches (pattern : string) (o : Order) : bool :=
  match orderNumber o with
  | Some s => String.prefix pattern s
  | None => false
  end.

(** The sort key: strings compare by their characters' codes. *)
Definition orderNumber_ltb (a b : Order) : bool :=
  match orderNumber a, orderNumber b with
  | Some x, Some y => String.ltb x y
  | _, _ => false
  end.

(** [findOne(filter).sort({orderNumber: -1})]: a matching document with the
    greatest [orderNumber], or [None]. *)
Fixpoint findOne_sorted_desc (pattern : string) (coll : list Order)
    : option Order :=
  match coll with
  | [] => None
  | o :: rest =>
      let best := findOne_sorted_desc pattern rest in
      if matches pattern o then
        match best with
        | Some b => if orderNumber_ltb o b then Some b else Some o
        | None => Some o
        end
      else best
  end.

Definition dateStr (date : Date) : string :=
  Number_toString (Num (getFullYear date))
  +:+ padStart 2 "0" (Number_toString (Num (getMonth date + 1)))
  +:+ padStart 2 "0" (Number_toString (Num (getDate date))).

(** The sequence number the hook derives from the last order of the day. *)
Definition next_sequence (lastOrder : option Order) : Number :=
  match lastOrder with
  | Some last =>
      let lastSequence := parseInt (slice (-4) (default "" (orderNumber last))) in
      Number_succ lastSequence
  | None => Num 1
  end.

(** The [pre('save')] hook, run on [this] against the collection [coll] on the
    day [date]. *)
Definition pre_save (date : Date) (coll : list Order) (this : Order) : Order :=
  if no_orderNumber this then
    let lastOrder := findOne_sorted_desc ("VC" +:+ dateStr date) coll in
    let sequence := next_sequence lastOrder in
    {| orderNumber :=
         Some ("VC" +:+ dateStr date
               +:+ padStart 4 "0" (Number_toString sequence)) |}
  else this.

(** ** The format of an order number *)

(** Decimal digits, and the strings made of them. *)
Definition is_digit (c : ascii) : bool :=
  let n := N_of_ascii c in ((48 <=? n) && (n <=? 57))%N.

Fixpoint all_digits (s : string) : bool :=
  match s with
  | String c rest => is_digit c && all_digits rest
  | EmptyString => true
  end.

(** The dates [new Date()] yields in the years of four digits. *)
Definition valid_date (date : Date) : Prop :=
  1000 <= getFullYear date <= 9999 /\
  0 <= getMonth date <= 11 /\
  1 <= getDate date <= 31.

(** The pattern of a day. *)
Definition day_prefix (date : Date) : string := "VC" +:+ dateStr date.

(** The text of a sequence number. *)
Definition sequence_text (k : Z) : string :=
  padStart 4 "0" (Number_toString (Num k)).

(** The order [o] carries the number of the day with sequence [k]. *)
Definition numbered (pattern : string) (o : Order) (k : Z) : Prop :=
  0 <= k <= 9999 /\ orderNumber o = Some (pattern +:+ sequence_text k).

(** [m] is the highest sequence of the day in a collection whose numbers of
    that day all have the generated form. *)
Definition highest (pattern : string) (coll : list Order) (m : Z) : Prop :=
  (exists o, o ∈ coll /\ numbered pattern o m) /\
  (forall o, o ∈ coll -> matches pattern o = true ->
             exists k, numbered pattern o k /\ k <= m).

(** The character of a decimal digit, and the text of four of them. *)
Definition digit (d : Z) : ascii := ascii_of_N (48 + Z.to_N d).

Definition digits4 (a b c d : Z) : string :=
  String (digit a) (String (digit b) (String (digit c)
    (String (digit d) EmptyString))).

(** Checks that are run on every integer of a range: the text of a sequence
    number is made of its four digits and [parseInt] reads it back; a year has
    four digits; a month or day padded to two has two. *)
Definition sequence_text_check (k : Z) : bool :=
  String.eqb (sequence_text k)
    (digits4 (k / 1000) (k / 100 mod 10) (k / 10 mod 10) (k mod 10))
  && match parseInt (sequence_text k) with
     | Num z => z =? k
     | NaN => false
     end
  && all_digits (sequence_text k)
  && (String.length (sequence_text k) =? 4)%nat.

Definition year_text_check (y : Z) : bool :=
  (String.length (Number_toString (Num y)) =? 4)%nat
  && all_digits (Number_toString (Num y)).

Definition two_digit_check (n : Z) : bool :=
  (String.length (padStart 2 "0" (Number_toString (Num n))) =? 2)%nat
  && all_digits (padStart 2 "0" (Number_toString (Num n))).

(** ** Runs of the hook *)

(** The order numbers a collection holds. *)
Definition numbers (coll : list Order) : list (option string) :=
  orderNumber <$> coll.


(** The hook run for each of [docs] in turn, against a collection that holds
    the orders numbered before: the result is the collection with them. *)
Definition allocate_in_turn (date : Date) (docs : list Order)
    (coll : list Order) : list Order :=
  foldl (fun coll doc => coll ++ [pre_save date coll doc]) coll docs.

(** The collection holds no number of the day, or numbers of the generated
    form with a highest sequence below 9999. *)
Definition below_last (date : Date) (coll : list Order) : Prop :=
  (forall o, o ∈ coll -> matches (day_prefix date) o = false) \/
  (exists m, highest (day_prefix date) coll m /\ m < 9999).

(** ** Savings of an order *)

(** Of an element of [items], [calculateSavings] reads [quantity] and
    [discountApplied]; amounts are exact rationals. *)
Record Item : Type := mkItem {
  quantity : Q;
  discountApplied : Q
}.

(** [calculateSavings()], over [this.items]. *)
Definition calculateSavings (items : list Item) : Q :=
  fold_left
    (fun totalSavings item =>
       (totalSavings + discountApplied item * quantity item)%Q)
    items 0%Q.

(** ** The numbers 1 to [k] of a day *)

(** The order with sequence number [k] of a day. *)
Definition order_numbered (date : Date) (k : nat) : Order :=
  mkOrder (Some (day_prefix date +:+ sequence_text (Z.of_nat k))).

(** The orders numbered 1 to [k] of a day. *)
Definition orders_upto (date : Date) (k : nat) : list Order :=
  order_numbered date <$> seq 1 k.

End Order.

(** * Products and bulk prices *)

Module Product.

Local Open Scope Q_scope.

(** An element of [bulkDiscounts]. A [Number] is taken as an exact rational;
    the rounding of the quotient and of the product is left out. *)
Record BulkDiscount : Type := mkBulkDiscount {
  minQuantity : Q;
  discountPercentage : Q
}.

(** The two fields of a product document that [getBulkPrice] reads. *)
Record Product : Type := mkProduct {
  price : Q;
  bulkDiscounts : list BulkDiscount
}.

(** [a < b] on rationals, as a boolean. *)
Definition Qlt_bool (a b : Q) : bool := negb (Qle_bool b a).

(** One turn of the loop over [bulkDiscounts]. *)
Definition consider (quantity : Q) (applicableDiscount : Q)
    (discount : BulkDiscount) : Q :=
  if Qle_bool (minQuantity discount) quantity
     && Qlt_bool applicableDiscount (discountPercentage discount)
  then discountPercentage discount
  else applicableDiscount.

(** The loop, from the value [start] of [applicableDiscount]. *)
Definition applicable_from (quantity : Q) (start : Q)
    (discounts : list BulkDiscount) : Q :=
  fold_left (consider quantity) discounts start.

(** [getBulkPrice(quantity)]. *)
Definition getBulkPrice (quantity : Q) (this : Product) : Q :=
  let applicableDiscount := applicable_from quantity 0 (bulkDiscounts this) in
  price this * (1 - applicableDiscount / 100).

(** The discount meets the quantity. *)
Definition met (quantity : Q) (d : BulkDiscount) : Prop :=
  minQuantity d <= quantity.

Definition percentages_in_range (this : Product) : Prop :=
  forall d, d ∈ bulkDiscounts this ->
            0 <= discountPercentage d /\ discountPercentage d <= 100.

(** A product with three tiers: 5 percent from 10 units, 20 percent from 50,
    10 percent from 20. *)
Definition tiered : Product :=
  {| price := 200;
     bulkDiscounts := [mkBulkDiscount 10 5; mkBulkDiscount 50 20;
                       mkBulkDiscount 20 10] |}.

End Product.

(** * Ratings *)

(** [updateRating], the same method in the Product model and in
    backend/models/User.js. *)
Module Rating.

Local Open Scope Q_scope.

(** The two fields the method reads and writes; the rating is a finite
    number, taken as an exact rational. *)
Record Rated : Type := mkRated {
  rating : Q;
  totalRatings : Z
}.

(** [updateRating(newRating)]: the count goes up by one, then the mean is
    recomputed. When the new count is 0 the method divides by 0: the quotient
    is [NaN] or an infinity, and what the field holds after the assignment is
    decided by the cast of the schema type, outside the method; [None] stands
    for that case. *)
Definition updateRating (newRating : Q) (this : Rated) : option Rated :=
  let totalRatings' := (totalRatings this + 1)%Z in
  if (totalRatings' =? 0)%Z then None
  else Some {| rating := (rating this * inject_Z (totalRatings' - 1) + newRating)
                         / inject_Z totalRatings';
               totalRatings := totalRatings' |}.

(** The schema defaults: rating 0 over 0 ratings. *)
Definition unrated : Rated := {| rating := 0; totalRatings := 0 |}.

(** The ratings of a list, given one after the other. *)
Definition rate_all (newRatings : list Q) (this : Rated) : option Rated :=
  foldl (fun this newRating => this ≫= updateRating newRating)
        (Some this) newRatings.

(** The sum of a list of ratings. *)
Definition sum_ratings (newRatings : list Q) : Q :=
  foldr Qplus 0 newRatings.

(** The rating is the mean of [totalRatings] ratings of sum [s]. *)
Definition mean_of (this : Rated) (s : Q) : Prop :=
  (0 <= totalRatings this)%Z /\
  rating this * inject_Z (totalRatings this) == s.

End Rating.

(** * Authentication middleware *)

(** backend/middleware/auth.js. A middleware either answers the request with
    a status and a message or calls [next()], the user on the request. *)
Module Auth.

(** How an awaited call, or a call that may throw, ends. *)
Inductive Settled (A : Type) : Type :=
  | Fulfilled (a : A)
  | Rejected.

Arguments Fulfilled {A} a.
Arguments Rejected {A}.

(** The fields of a user document the middleware reads. *)
Record User : Type := mkUser {
  _id : string;
  userType : string;
  isVerified : bool
}.

Inductive Reply : Type :=
  | Json (status : Z) (message : string)
  | Next (user : User).

(** [s.split(sep)] for a separator of one character. *)
Fixpoint split (sep : ascii) (s : string) : list string :=
  match s with
  | EmptyString => [EmptyString]
  | String c rest =>
      if Ascii.eqb c sep then EmptyString :: split sep rest
      else match split sep rest with
           | word :: words => String c word :: words
           | [] => [String c EmptyString]
           end
  end.

(** No space occurs in the string. *)
Fixpoint space_free (s : string) : bool :=
  match s with
  | EmptyString => true
  | String c rest => negb (Ascii.eqb c " ") && space_free rest
  end.

(** [authHeader && authHeader.split(' ')[1]], when it is truthy. *)
Definition bearer_token (authorization : option string) : option string :=
  match authorization with
  | Some authHeader =>
      match split " " authHeader !! 1%nat with
      | Some token => if bool_decide (token = "") then None else Some token
      | None => None
      end
  | None => None
  end.

Section Middleware.

(** [jwt.verify(token, process.env.JWT_SECRET)], read at [.userId]: it throws
    on a token it does not accept. *)
Variable verify : string -> Settled (option string).

(** [User.findById(userId).select('-password')]. *)
Variable findById : option string -> Settled (option User).

(** [authenticateToken]: the [try] block, and the [catch] for what is
    rejected in it. *)
Definition authenticateToken (authorization : option string) : Reply :=
  match bearer_token authorization with
  | None => Json 401 "Access token required"
  | Some token =>
      match verify token with
      | Fulfilled userId =>
          match findById userId with
          | Fulfilled (Some user) => Next user
          | Fulfilled None => Json 401 "Invalid token"
          | Rejected => Json 403 "Invalid or expired token"
          end
      | Rejected => Json 403 "Invalid or expired token"
      end
  end.

End Middleware.

Definition requireVendor (user : User) : Reply :=
  if bool_decide (userType user <> "vendor")
  then Json 403 "Vendor access required"
  else Next user.

Definition requireSupplier (user : User) : Reply :=
  if bool_decide (userType user <> "supplier")
  then Json 403 "Supplier access required"
  else Next user.

Definition requireVerified (user : User) : Reply :=
  if negb (isVerified user)
  then Json 403 "Account verification required"
  else Next user.

(** Middleware in a row: the next one runs when the one before called
    [next()]. *)
Definition and_then (first : Reply) (second : User -> Reply) : Reply :=
  match first with
  | Next user => second user
  | Json status message => Json status message
  end.

End Auth.

(** * The products routes *)

(** backend/routes/products.js: the paging of the product list, and the
    update and removal of a product by its supplier. *)
Module ProductsRoute.

Import Auth.

Local Open Scope Z_scope.

(** ** Paging *)

(** [Math.ceil(total / limit)] on integers, [limit] not 0. *)
Definition pages (total limit : Z) : Z := - ((- total) / limit).

(** [.skip(skip).limit(limit)] on the sorted results of the query, for a
    [skip] of 0 or more and a [limit] of 1 or more. *)
Definition find_page {A : Type} (results : list A) (skip limit : Z) : list A :=
  take (Z.to_nat limit) (drop (Z.to_nat skip) results).

(** The products of page [p] (from 1) of a result list. *)
Definition page_items {A : Type} (results : list A) (limit : Z) (p : nat)
    : list A :=
  find_page results ((Z.of_nat p - 1) * limit) limit.

(** ** Updating and deleting a product *)

(** The values of a JSON body and of a stored document. *)
#[warnings="-register-all"]
Inductive Value : Type :=
  | Null
  | Bool (b : bool)
  | Number (q : Q)
  | Str (s : string)
  | Arr (items : list Value)
  | Obj (fields : list (string * Value)).

(** The fields a supplier may change. *)
Definition allowedUpdates : list string :=
  ["name"; "description"; "price"; "availableQuantity";
   "minimumOrderQuantity"; "bulkDiscounts"; "specifications"; "tags";
   "isActive"; "images"].

(** The loop that fills [updates]: a field of the list is copied when the
    body has it ([req.body[field] !== undefined]). *)
Definition build_updates (body : gmap string Value) : gmap string Value :=
  foldl (fun updates field =>
           match body !! field with
           | Some v => <[field := v]> updates
           | None => updates
           end)
    ∅ allowedUpdates.

(** [product.supplier.toString() !== req.user._id.toString()]; the schema
    makes [supplier] an ObjectId, here its string. On a document without
    it [toString] throws: [None]. *)
Definition owned_by (user : User) (product : gmap string Value)
    : option bool :=
  match product !! "supplier" with
  | Some (Str supplier) => Some (bool_decide (supplier = _id user))
  | _ => None
  end.

Section Handlers.

(** Whether Mongoose casts the [:id] of the path to an ObjectId; [findById]
    throws when it does not. *)
Variable isObjectId : string -> bool.

(** The validators that [runValidators: true] runs on the values an update
    sets; an update that fails them is rejected. *)
Variable validates : gmap string Value -> bool.

(** The casting and the setters ([trim], [lowercase]) the schema applies to
    the value given for a field. *)
Variable cast : string -> Value -> Value.

(** The handler of [PUT /:id], for the user on the request, on the products
    collection; [now] is the time [timestamps] puts in [updatedAt]. The
    [catch] answers 500. *)
Definition put_product (now : Value) (user : User) (id : string)
    (body : gmap string Value) (store : gmap string (gmap string Value))
    : Reply * gmap string (gmap string Value) :=
  if negb (isObjectId id)
  then (Json 500 "Server error during product update", store)
  else
    match store !! id with
    | None => (Json 404 "Product not found", store)
    | Some product =>
        match owned_by user product with
        | None => (Json 500 "Server error during product update", store)
        | Some false =>
            (Json 403 "Not authorized to update this product", store)
        | Some true =>
            let updates := build_updates body in
            let set := map_imap (fun f v => Some (cast f v)) updates in
            if validates set
            then (Json 200 "Product updated successfully",
                  <[id := <["updatedAt" := now]> (set ∪ product)]> store)
            else (Json 500 "Server error during product update", store)
        end
    end.

(** The handler of [DELETE /:id]. *)
Definition delete_product (user : User) (id : string)
    (store : gmap string (gmap string Value))
    : Reply * gmap string (gmap string Value) :=
  if negb (isObjectId id)
  then (Json 500 "Server error during product deletion", store)
  else
    match store !! id with
    | None => (Json 404 "Product not found", store)
    | Some product =>
        match owned_by user product with
        | None => (Json 500 "Server error during product deletion", store)
        | Some false =>
            (Json 403 "Not authorized to delete this product", store)
        | Some true =>
            (Json 200 "Product deleted successfully", delete id store)
        end
    end.

(** The two routes, behind [authenticateToken] and [requireSupplier]. *)
Variable verify : string -> Settled (option string).
Variable findById : option string -> Settled (option User).

Definition put_route (now : Value) (authorization : option string)
    (id : string) (body : gmap string Value)
    (store : gmap string (gmap string Value))
    : Reply * gmap string (gmap string Value) :=
  match and_then (authenticateToken verify findById authorization)
          requireSupplier with
  | Next user => put_product now user id body store
  | Json status message => (Json status message, store)
  end.

Definition delete_route (authorization : option string) (id : string)
    (store : gmap string (gmap string Value))
    : Reply * gmap string (gmap string Value) :=
  match and_then (authenticateToken verify findById authorization)
          requireSupplier with
  | Next user => delete_product user id store
  | Json status message => (Json status message, store)
  end.

End Handlers.

End ProductsRoute.

(** * Properties of group orders *)

Module GroupOrderFacts.

Import GroupOrder.

Local Open Scope Z_scope.

(** ** Sums over the participants array *)

Lemma total_quantity_app ps qs :
  total_quantity (ps ++ qs) = total_quantity ps + total_quantity qs.
Proof.
  induction ps as [|p ps IH]; simpl; [lia|].
  fold (total_quantity (ps ++ qs)) (total_quantity ps). lia.
Qed.

Lemma total_quantity_insert ps i p p' :
  ps !! i = Some p ->
  total_quantity (<[i := p']> ps) = total_quantity ps - quantity p + quantity p'.
Proof.
  revert i. induction ps as [|x ps IH]; intros [|i] Hi; simplify_eq/=.
  - fold (total_quantity ps). lia.
  - fold (total_quantity (<[i := p']> ps)) (total_quantity ps).
    rewrite (IH i Hi). lia.
Qed.

Lemma total_quantity_delete ps i p :
  ps !! i = Some p ->
  total_quantity (delete i ps) = total_quantity ps - quantity p.
Proof.
  revert i. induction ps as [|x ps IH]; intros [|i] Hi; simplify_eq/=.
  - fold (total_quantity ps). lia.
  - fold (total_quantity (delete i ps)) (total_quantity ps).
    rewrite (IH i Hi). lia.
Qed.

(** ** The two methods, case by case *)

Lemma addParticipant_existing now v q g i p :
  list_find (isVendor v) (participants g) = Some (i, p) ->
  participants (after (addParticipant now v q g))
    = <[i := set_quantity p (quantity p + q)]> (participants g).
Proof. intros H. unfold addParticipant, after. simpl. by rewrite H. Qed.

Lemma addParticipant_new now v q g :
  list_find (isVendor v) (participants g) = None ->
  participants (after (addParticipant now v q g))
    = participants g ++ [{| vendor := v; quantity := q; joinedAt := now |}].
Proof. intros H. unfold addParticipant, after. simpl. by rewrite H. Qed.

Lemma addParticipant_currentQuantity now v q g :
  currentQuantity (after (addParticipant now v q g)) = currentQuantity g + q.
Proof. reflexivity. Qed.

Lemma addParticipant_outcome now v q g :
  outcome (addParticipant now v q g) = Normal.
Proof. reflexivity. Qed.

Lemma removeParticipant_outcome v g :
  outcome (removeParticipant v g) = Normal.
Proof. unfold removeParticipant. by destruct (list_find _ _) as [[??]|]. Qed.

Lemma removeParticipant_absent v g :
  list_find (isVendor v) (participants g) = None ->
  removeParticipant v g = (Normal, g).
Proof. intros H. unfold removeParticipant. by rewrite H. Qed.

(** C2: the quantity invariant is kept by both methods, whatever the vendor and
    the status. *)
Theorem quantity_consistent_preserved (g : GroupOrder) :
  quantity_consistent g ->
  (forall now v q, quantity_consistent (after (addParticipant now v q g))) /\
  (forall v, quantity_consistent (after (removeParticipant v g))).
Proof.
  unfold quantity_consistent. intros Hg. split.
  - intros now v q. rewrite addParticipant_currentQuantity.
    destruct (list_find (isVendor v) (participants g)) as [[i p]|] eqn:Hf.
    + rewrite (addParticipant_existing _ _ _ _ _ _ Hf).
      apply list_find_Some in Hf as (Hi & _ & _).
      rewrite (total_quantity_insert _ _ _ _ Hi). simpl. lia.
    + rewrite (addParticipant_new _ _ _ _ Hf), total_quantity_app. simpl. lia.
  - intros v. unfold removeParticipant.
    destruct (list_find (isVendor v) (participants g)) as [[i p]|] eqn:Hf;
      [|exact Hg].
    apply list_find_Some in Hf as (Hi & _ & _).
    unfold after. simpl. rewrite (total_quantity_delete _ _ _ Hi). lia.
Qed.

(** After join(v1,40), join(v2,70), leave(v1) on a fresh group order the
    quantity is the sum of the entries. *)
Lemma quantity_consistent_preserved_witness :
  let g1 := after (addParticipant 1 "v1" 40 (fresh 100 50 1000)) in
  let g2 := after (addParticipant 2 "v2" 70 g1) in
  let g3 := after (removeParticipant "v1" g2) in
  quantity_consistent g1 /\ quantity_consistent g2 /\ quantity_consistent g3 /\
  currentQuantity g3 = 70.
Proof.
  cbv zeta.
  assert (H0 : quantity_consistent (fresh 100 50 1000)) by reflexivity.
  pose proof (proj1 (quantity_consistent_preserved _ H0) 1 "v1" 40) as H1.
  pose proof (proj1 (quantity_consistent_preserved _ H1) 2 "v2" 70) as H2.
  pose proof (proj2 (quantity_consistent_preserved _ H2) "v1") as H3.
  split_and!; [exact H1|exact H2|exact H3|reflexivity].
Defined.

(** ** The shape of the array around the first entry of a vendor *)

Lemma list_find_isVendor_None v ps :
  list_find (isVendor v) ps = None <-> v ∉ vendors ps.
Proof.
  rewrite list_find_None, Forall_forall. unfold vendors, isVendor. split.
  - intros H (p & -> & Hp)%list_elem_of_fmap. by apply (H p Hp).
  - intros H p Hp Hv. apply H. subst v. by apply list_elem_of_fmap_2.
Qed.

Lemma list_find_isVendor_Some v ps i p :
  list_find (isVendor v) ps = Some (i, p) ->
  exists l1 l2, ps = l1 ++ p :: l2 /\ length l1 = i /\
                 vendor p = v /\ v ∉ vendors l1.
Proof.
  intros (Hi & Hp & Hleast)%list_find_Some.
  exists (take i ps), (drop (S i) ps). split_and!.
  - by rewrite take_drop_middle.
  - apply length_take_le. apply lookup_lt_Some in Hi. lia.
  - exact Hp.
  - intros (x & -> & Hx)%list_elem_of_fmap.
    apply list_elem_of_lookup in Hx as [j Hj].
    apply lookup_take_Some in Hj as [Hj Hlt]. by apply (Hleast j x).
Qed.

Lemma entries_of_absent v ps : v ∉ vendors ps -> entries_of v ps = [].
Proof.
  unfold entries_of, vendors. induction ps as [|p ps IH]; [done|].
  rewrite fmap_cons, not_elem_of_cons. intros [Hne Hps].
  rewrite filter_cons_False; [by apply IH|]. unfold isVendor. congruence.
Qed.

Lemma entries_of_middle v l1 p l2 :
  v ∉ vendors l1 -> vendor p = v ->
  entries_of v (l1 ++ p :: l2) = p :: entries_of v l2.
Proof.
  intros H1 Hp. unfold entries_of. rewrite filter_app.
  fold (entries_of v l1). rewrite (entries_of_absent _ _ H1). simpl.
  by rewrite filter_cons_True.
Qed.

(** C3 fails as stated: a group order may be [active] with the target already
    met (say, after the target was lowered); the join sets [target_reached]
    and the leave does not drop below the target, so the status stays. *)
Lemma leave_keeps_target_reached :
  let g := {| targetQuantity := 100; currentQuantity := 100;
              maxParticipants := 50;
              participants := [mkParticipant "v0" 100 0];
              status := active; deadline := 1000 |} in
  let g1 := after (addParticipant 1 "v1" 5 g) in
  let g2 := after (removeParticipant "v1" g1) in
  status g = active /\ ("v1" ∉ vendors (participants g)) /\
  targetQuantity g <= currentQuantity g + 5 /\
  status g1 = target_reached /\
  currentQuantity g2 = currentQuantity g /\
  status g2 = target_reached /\ status g2 <> active.
Proof.
  cbv zeta. split_and!; try (vm_compute; done).
  cbn. rewrite not_elem_of_cons. split; [discriminate|apply not_elem_of_nil].
Qed.

(** C3, amended: from [active] and below the target, a join by a new vendor
    that reaches the target sets [target_reached], and the leave that follows
    gives back the document as it was, status [active] included; a leave
    changes the status only from [target_reached], and then to [active]. *)
Theorem join_to_target_then_leave (g : GroupOrder) (now : Date) (v : ObjectId)
    (q : Z) :
  status g = active ->
  v ∉ vendors (participants g) ->
  currentQuantity g < targetQuantity g ->
  targetQuantity g <= currentQuantity g + q ->
  (let g1 := after (addParticipant now v q g) in
   let g2 := after (removeParticipant v g1) in
   status g1 = target_reached /\
   entries_of v (participants g2) = [] /\
   participants g2 = participants g /\
   currentQuantity g2 = currentQuantity g /\
   status g2 = active) /\
  (forall g' v',
     status (after (removeParticipant v' g')) <> status g' ->
     status g' = target_reached /\
     status (after (removeParticipant v' g')) = active).
Proof.
  intros Hst Hv Hlt Hge. split.
  - apply list_find_isVendor_None in Hv as Hf.
    destruct g as [tq cq mp ps st dl]. simpl in *. subst st.
    unfold addParticipant, after. simpl. rewrite Hf. simpl.
    assert (Hfind : list_find (isVendor v) (ps ++ [mkParticipant v q now])
                    = Some (length ps, mkParticipant v q now)).
    { rewrite (list_find_app_r _ _ _ Hf). simpl.
      by rewrite decide_True by done. }
    replace (tq <=? cq + q) with true by (symmetry; apply Z.leb_le; lia).
    simpl. split; [done|].
    unfold removeParticipant. simpl. rewrite Hfind. simpl.
    rewrite delete_middle, app_nil_r.
    replace (cq + q - q) with cq by lia.
    replace (cq <? tq) with true by (symmetry; apply Z.ltb_lt; lia).
    simpl. split_and!; try done. by apply entries_of_absent.
  - intros g' v'. unfold removeParticipant.
    destruct (list_find (isVendor v') (participants g')) as [[i p]|];
      unfold after; simpl; [|done].
    destruct (currentQuantity g' - quantity p <? targetQuantity g'); simpl;
      [|done].
    case_bool_decide; [|done]. by intros _.
Qed.

(** The example of C3: target 100, join(v1,100), leave(v1). *)
Lemma join_to_target_then_leave_witness :
  let g := fresh 100 50 1000 in
  let g1 := after (addParticipant 1 "v1" 100 g) in
  let g2 := after (removeParticipant "v1" g1) in
  status g1 = target_reached /\ currentQuantity g2 = 0 /\ status g2 = active.
Proof.
  assert (Hv : "v1" ∉ vendors (participants (fresh 100 50 1000)))
    by apply not_elem_of_nil.
  destruct (join_to_target_then_leave (fresh 100 50 1000) 1 "v1" 100
              eq_refl Hv eq_refl) as [(H1 & _ & _ & H2 & H3) _].
  - vm_compute. discriminate.
  - exact (conj H1 (conj H2 H3)).
Defined.

(** ** Joining twice, capacity and preconditions *)

Lemma vendors_insert_same ps i p q :
  ps !! i = Some p -> vendors (<[i := set_quantity p q]> ps) = vendors ps.
Proof.
  intros Hi. unfold vendors. rewrite list_fmap_insert. simpl.
  apply list_insert_id. by rewrite list_lookup_fmap, Hi.
Qed.

Lemma addParticipant_vendors_NoDup now v q g :
  NoDup (vendors (participants g)) ->
  NoDup (vendors (participants (after (addParticipant now v q g)))).
Proof.
  intros Hnd.
  destruct (list_find (isVendor v) (participants g)) as [[i p]|] eqn:Hf.
  - rewrite (addParticipant_existing _ _ _ _ _ _ Hf).
    apply list_find_Some in Hf as (Hi & _ & _).
    by rewrite (vendors_insert_same _ _ _ _ Hi).
  - rewrite (addParticipant_new _ _ _ _ Hf).
    apply list_find_isVendor_None in Hf.
    unfold vendors in *. rewrite fmap_app. apply NoDup_app. split_and!.
    + done.
    + intros x Hx Hin. apply list_elem_of_singleton in Hin. by subst x.
    + apply NoDup_singleton.
Qed.

Lemma entries_of_cons_find v ps p rest :
  entries_of v ps = p :: rest ->
  exists l1 l2, list_find (isVendor v) ps = Some (length l1, p) /\
                ps = l1 ++ p :: l2 /\ vendor p = v /\
                (v ∉ vendors l1) /\ entries_of v l2 = rest.
Proof.
  intros He.
  destruct (list_find (isVendor v) ps) as [[i p']|] eqn:Hf.
  - destruct (list_find_isVendor_Some _ _ _ _ Hf)
      as (l1 & l2 & -> & <- & Hp & H1).
    rewrite (entries_of_middle _ _ _ _ H1 Hp) in He.
    exists l1, l2. by simplify_eq.
  - apply list_find_isVendor_None in Hf.
    rewrite (entries_of_absent _ _ Hf) in He. discriminate.
Qed.

Lemma entries_of_other_vendor v w l1 p p' l2 :
  vendor p = v -> vendor p' = v -> w <> v ->
  entries_of w (l1 ++ p' :: l2) = entries_of w (l1 ++ p :: l2).
Proof.
  intros Hp Hp' Hne. unfold entries_of. rewrite !filter_app.
  rewrite !(filter_cons_False (isVendor w)); [done|..];
    unfold isVendor; congruence.
Qed.

(** C4: a join by a vendor that has an entry adds the quantity to that entry
    (the first, were there several), adds no entry for the vendor and leaves
    the array at its length, so a vendor with the single entry of quantity q1
    has a single entry of quantity q1 + q2; a join by a vendor without entry
    appends one entry with the given quantity; the entries of other vendors
    are untouched, and an array with one entry per vendor stays so. *)
Theorem addParticipant_accumulates (g : GroupOrder) (now : Date) (v : ObjectId)
    (q2 : Z) :
  let ps' := participants (after (addParticipant now v q2 g)) in
  (forall p, entries_of v (participants g) = [p] ->
     entries_of v ps' = [set_quantity p (quantity p + q2)] /\
     length ps' = length (participants g)) /\
  (forall p rest, entries_of v (participants g) = p :: rest ->
     entries_of v ps' = set_quantity p (quantity p + q2) :: rest /\
     length ps' = length (participants g)) /\
  (v ∉ vendors (participants g) ->
     ps' = participants g ++ [mkParticipant v q2 now] /\
     entries_of v ps' = [mkParticipant v q2 now]) /\
  (forall w, w <> v -> entries_of w ps' = entries_of w (participants g)) /\
  (NoDup (vendors (participants g)) -> NoDup (vendors ps')).
Proof.
  cbv zeta.
  assert (Hcons : forall p rest, entries_of v (participants g) = p :: rest ->
     entries_of v (participants (after (addParticipant now v q2 g)))
       = set_quantity p (quantity p + q2) :: rest /\
     length (participants (after (addParticipant now v q2 g)))
       = length (participants g)).
  { intros p rest He.
    destruct (entries_of_cons_find _ _ _ _ He)
      as (l1 & l2 & Hf & Hps & Hp & H1 & Hrest).
    rewrite (addParticipant_existing _ _ _ _ _ _ Hf), length_insert.
    split; [|done]. rewrite Hps.
    replace (length l1) with (length l1 + 0)%nat by lia.
    rewrite insert_app_r. simpl.
    rewrite (entries_of_middle _ _ _ _ H1) by done. by rewrite Hrest. }
  split_and!.
  - intros p. apply Hcons.
  - exact Hcons.
  - intros Hv. apply list_find_isVendor_None in Hv as Hf.
    rewrite (addParticipant_new _ _ _ _ Hf). split; [done|].
    unfold entries_of. rewrite filter_app. fold (entries_of v (participants g)).
    rewrite (entries_of_absent _ _ Hv). simpl.
    by rewrite filter_cons_True by done.
  - intros w Hne.
    destruct (list_find (isVendor v) (participants g)) as [[i p]|] eqn:Hf.
    + rewrite (addParticipant_existing _ _ _ _ _ _ Hf).
      destruct (list_find_isVendor_Some _ _ _ _ Hf)
        as (l1 & l2 & Hps & <- & Hp & H1).
      rewrite Hps. replace (length l1) with (length l1 + 0)%nat by lia.
      rewrite insert_app_r. simpl. by apply (entries_of_other_vendor v).
    + rewrite (addParticipant_new _ _ _ _ Hf).
      unfold entries_of. rewrite filter_app.
      rewrite (filter_cons_False (isVendor w)), filter_nil, app_nil_r; [done|].
      unfold isVendor. simpl. congruence.
  - apply addParticipant_vendors_NoDup.
Qed.

(** The example of C4: join(v1,10) then join(v1,15) gives one entry of 25. *)
Lemma addParticipant_accumulates_witness :
  let g1 := after (addParticipant 1 "v1" 10 (fresh 100 50 1000)) in
  let g2 := after (addParticipant 2 "v1" 15 g1) in
  entries_of "v1" (participants g1) = [mkParticipant "v1" 10 1] /\
  entries_of "v1" (participants g2) = [mkParticipant "v1" 25 1] /\
  length (participants g2) = 1%nat.
Proof.
  cbv zeta.
  destruct (addParticipant_accumulates (fresh 100 50 1000) 1 "v1" 10)
    as (_ & _ & Hnew & _).
  destruct (Hnew ltac:(apply not_elem_of_nil)) as [Hps1 He1].
  destruct (addParticipant_accumulates
              (after (addParticipant 1 "v1" 10 (fresh 100 50 1000))) 2 "v1" 15)
    as (Hacc & _).
  destruct (Hacc _ He1) as [He2 Hlen]. split_and!.
  - exact He1.
  - exact He2.
  - rewrite Hlen, Hps1. reflexivity.
Defined.

(** C6 fails: the method never consults [maxParticipants]. With a cap of one
    and one participant, a second vendor is added and nothing is thrown. *)
Lemma join_beyond_maxParticipants :
  let g := {| targetQuantity := 10; currentQuantity := 1;
              maxParticipants := 1;
              participants := [mkParticipant "v1" 1 0];
              status := active; deadline := 1000 |} in
  let r := addParticipant 1 "v2" 1 g in
  Z.of_nat (length (participants g)) <= maxParticipants g /\
  ("v2" ∉ vendors (participants g)) /\
  ~ fails_with r "CapacityExceeded" /\
  vendors (participants (after r)) = ["v1"; "v2"] /\
  maxParticipants (after r) < Z.of_nat (length (participants (after r))).
Proof.
  cbv zeta. split_and!; try (vm_compute; done).
  cbn. rewrite not_elem_of_cons. split; [discriminate|apply not_elem_of_nil].
Qed.

(** C6, amended: the method never reads [maxParticipants] and never fails:
    with another cap the join does the same and leaves that cap. A join by a
    participating vendor adds the quantity to the vendor's first entry and
    keeps the entries' number and vendors; a join by a new vendor appends one
    entry, with the vendor, the quantity and the time of the join, whatever
    the cap. In both cases the quantity is added to [currentQuantity], an
    [active] order whose target is met becomes [target_reached], and the
    cap, the target and the deadline stay as they are. *)
Theorem addParticipant_ignores_cap (g : GroupOrder) (now : Date) (v : ObjectId)
    (q : Z) :
  let r := addParticipant now v q g in
  outcome r = Normal /\
  maxParticipants (after r) = maxParticipants g /\
  (forall cap, addParticipant now v q (set_maxParticipants g cap)
               = (Normal, set_maxParticipants (after r) cap)) /\
  (v ∈ vendors (participants g) ->
     length (participants (after r)) = length (participants g) /\
     vendors (participants (after r)) = vendors (participants g) /\
     exists i p,
       list_find (isVendor v) (participants g) = Some (i, p) /\
       participants (after r)
       = <[i := set_quantity p (quantity p + q)]> (participants g)) /\
  (v ∉ vendors (participants g) ->
     participants (after r) = participants g ++ [mkParticipant v q now] /\
     length (participants (after r)) = S (length (participants g)) /\
     vendors (participants (after r)) = vendors (participants g) ++ [v]) /\
  currentQuantity (after r) = currentQuantity g + q /\
  status (after r)
  = (if (targetQuantity g <=? currentQuantity g + q)
        && bool_decide (status g = active)
     then target_reached else status g) /\
  targetQuantity (after r) = targetQuantity g /\
  deadline (after r) = deadline g.
Proof.
  cbv zeta. split_and!; try done.
  - intros Hv.
    destruct (list_find (isVendor v) (participants g)) as [[i p]|] eqn:Hf.
    + rewrite (addParticipant_existing _ _ _ _ _ _ Hf), length_insert.
      split_and!; [done| |by exists i, p].
      apply list_find_Some in Hf as (Hi & _ & _).
      by rewrite (vendors_insert_same _ _ _ _ Hi).
    + by apply list_find_isVendor_None in Hf.
  - intros Hv. apply list_find_isVendor_None in Hv.
    rewrite (addParticipant_new _ _ _ _ Hv), length_app.
    split_and!; [done|simpl; lia|].
    unfold vendors. by rewrite fmap_app.
Qed.

(** With a cap of one and one participant: the participant joins again, a
    second vendor joins, and with a cap of 50 the join does the same. *)
Lemma addParticipant_ignores_cap_witness :
  let g := {| targetQuantity := 10; currentQuantity := 1;
              maxParticipants := 1;
              participants := [mkParticipant "v1" 1 0];
              status := active; deadline := 1000 |} in
  participants (after (addParticipant 1 "v1" 4 g)) = [mkParticipant "v1" 5 0] /\
  participants (after (addParticipant 1 "v2" 4 g))
  = [mkParticipant "v1" 1 0; mkParticipant "v2" 4 1] /\
  after (addParticipant 1 "v2" 4 (set_maxParticipants g 50))
  = set_maxParticipants (after (addParticipant 1 "v2" 4 g)) 50.
Proof.
  cbv zeta. split_and!.
  - destruct (addParticipant_ignores_cap
                {| targetQuantity := 10; currentQuantity := 1;
                   maxParticipants := 1;
                   participants := [mkParticipant "v1" 1 0];
                   status := active; deadline := 1000 |} 1 "v1" 4)
      as (_ & _ & _ & Hold & _).
    destruct Hold as (_ & _ & i & p & Hf & Hps).
    + cbn. apply list_elem_of_here.
    + rewrite Hps. vm_compute in Hf. injection Hf as <- <-. reflexivity.
  - destruct (addParticipant_ignores_cap
                {| targetQuantity := 10; currentQuantity := 1;
                   maxParticipants := 1;
                   participants := [mkParticipant "v1" 1 0];
                   status := active; deadline := 1000 |} 1 "v2" 4)
      as (_ & _ & _ & _ & Hnew & _).
    destruct Hnew as (Hps & _).
    + cbn. rewrite not_elem_of_cons. split; [discriminate|apply not_elem_of_nil].
    + rewrite Hps. reflexivity.
  - destruct (addParticipant_ignores_cap
                {| targetQuantity := 10; currentQuantity := 1;
                   maxParticipants := 1;
                   participants := [mkParticipant "v1" 1 0];
                   status := active; deadline := 1000 |} 1 "v2" 4)
      as (_ & _ & Hcap & _).
    by rewrite (Hcap 50).
Defined.

Lemma addParticipant_total_quantity now v q g :
  total_quantity (participants (after (addParticipant now v q g)))
    = total_quantity (participants g) + q.
Proof.
  destruct (list_find (isVendor v) (participants g)) as [[i p]|] eqn:Hf.
  - rewrite (addParticipant_existing _ _ _ _ _ _ Hf).
    apply list_find_Some in Hf as (Hi & _ & _).
    rewrite (total_quantity_insert _ _ _ _ Hi). simpl. lia.
  - rewrite (addParticipant_new _ _ _ _ Hf), total_quantity_app. simpl. lia.
Qed.

(** C7 fails: the method has no precondition. On an [ordered] group order
    whose deadline has passed, a join is carried out and nothing is thrown. *)
Lemma join_on_closed_order :
  let g := {| targetQuantity := 10; currentQuantity := 0;
              maxParticipants := 50; participants := [];
              status := ordered; deadline := 1000 |} in
  let r := addParticipant 2000 "v1" 5 g in
  status g <> active /\ deadline g <= 2000 /\
  outcome r = Normal /\
  ~ fails_with r "OrderClosed" /\ ~ fails_with r "DeadlinePassed" /\
  participants (after r) = [mkParticipant "v1" 5 2000] /\
  currentQuantity (after r) = 5 /\
  ~ same_state g (after r).
Proof.
  cbv zeta. split_and!; try (vm_compute; done).
  intros (H & _). vm_compute in H. discriminate.
Qed.

(** C7, amended: a join never fails and reads neither the deadline nor the
    sign of the quantity; in every status and at every time it adds the
    quantity to [currentQuantity] and to the participants' total; only the
    status stays as it is when it is not [active]. *)
Theorem addParticipant_unconditional (g : GroupOrder) (now : Date)
    (v : ObjectId) (q : Z) :
  let r := addParticipant now v q g in
  outcome r = Normal /\
  currentQuantity (after r) = currentQuantity g + q /\
  total_quantity (participants (after r))
    = total_quantity (participants g) + q /\
  (status g <> active -> status (after r) = status g) /\
  (forall dl, after (addParticipant now v q (set_deadline g dl))
              = set_deadline (after r) dl).
Proof.
  cbv zeta. split_and!; try done.
  - apply addParticipant_total_quantity.
  - intros Hst. unfold addParticipant, after. simpl.
    rewrite (bool_decide_eq_false_2 _ Hst). by rewrite andb_false_r.
Qed.

Lemma addParticipant_unconditional_witness :
  let g := {| targetQuantity := 10; currentQuantity := 0;
              maxParticipants := 50; participants := [];
              status := cancelled; deadline := 1000 |} in
  status (after (addParticipant 2000 "v1" 50 g)) = cancelled.
Proof.
  cbv zeta.
  refine (proj1 (proj2 (proj2 (proj2
            (addParticipant_unconditional _ 2000 "v1" 50)))) _).
  discriminate.
Defined.

(** C8 fails in its first half: a leave by a vendor without entry throws
    nothing, it returns as any other call. *)
Lemma leave_of_non_participant_returns :
  let g := {| targetQuantity := 10; currentQuantity := 3;
              maxParticipants := 50;
              participants := [mkParticipant "v1" 3 0];
              status := active; deadline := 1000 |} in
  ("v2" ∉ vendors (participants g)) /\
  outcome (removeParticipant "v2" g) = Normal /\
  ~ fails_with (removeParticipant "v2" g) "NotAParticipant".
Proof.
  cbv zeta. split_and!; try (vm_compute; done).
  cbn. rewrite not_elem_of_cons. split; [discriminate|apply not_elem_of_nil].
Qed.

(** C8, amended: a leave by a vendor without entry returns normally and
    leaves the whole document, hence participants, quantity and status, as it
    was. *)
Theorem removeParticipant_non_participant (g : GroupOrder) (v : ObjectId) :
  v ∉ vendors (participants g) ->
  removeParticipant v g = (Normal, g) /\
  same_state g (after (removeParticipant v g)).
Proof.
  intros Hv%list_find_isVendor_None.
  rewrite (removeParticipant_absent _ _ Hv). by split.
Qed.

Lemma removeParticipant_non_participant_witness :
  removeParticipant "v2" (fresh 10 50 1000) = (Normal, fresh 10 50 1000).
Proof.
  refine (proj1 (removeParticipant_non_participant (fresh 10 50 1000) "v2" _)).
  apply not_elem_of_nil.
Defined.

(** C9 fails: the method does not look at the status before it removes. On
    an [ordered] group order the participant is removed, nothing is thrown. *)
Lemma leave_after_ordered :
  let g := {| targetQuantity := 5; currentQuantity := 5;
              maxParticipants := 50;
              participants := [mkParticipant "v1" 5 0];
              status := ordered; deadline := 1000 |} in
  let r := removeParticipant "v1" g in
  status g = ordered /\ ("v1" ∈ vendors (participants g)) /\
  ~ fails_with r "OrderLocked" /\
  participants (after r) = [] /\ currentQuantity (after r) = 0 /\
  ~ same_state g (after r).
Proof.
  cbv zeta. split_and!; try (vm_compute; done).
  - cbn. apply list_elem_of_here.
  - intros (H & _). vm_compute in H. discriminate.
Qed.

(** C9, amended: in status [ordered], [delivered] or [cancelled] a leave by a
    participating vendor returns normally, removes the vendor's first entry
    and takes its quantity off [currentQuantity]; the status is unchanged. *)
Theorem removeParticipant_any_status (g : GroupOrder) (v : ObjectId) (i : nat)
    (p : Participant) :
  status g = ordered \/ status g = delivered \/ status g = cancelled ->
  list_find (isVendor v) (participants g) = Some (i, p) ->
  let r := removeParticipant v g in
  outcome r = Normal /\
  participants (after r) = delete i (participants g) /\
  length (participants (after r)) = Nat.pred (length (participants g)) /\
  currentQuantity (after r) = currentQuantity g - quantity p /\
  status (after r) = status g.
Proof.
  intros Hst Hf. cbv zeta. unfold removeParticipant, after, outcome.
  rewrite Hf. simpl. apply list_find_Some in Hf as (Hi & _ & _).
  split_and!; try done.
  - rewrite length_delete; [lia|]. by rewrite Hi.
  - rewrite bool_decide_eq_false_2; [by rewrite andb_false_r|].
    destruct Hst as [->|[->| ->]]; discriminate.
Qed.

Lemma removeParticipant_any_status_witness :
  let g := {| targetQuantity := 5; currentQuantity := 5;
              maxParticipants := 50;
              participants := [mkParticipant "v1" 5 0];
              status := delivered; deadline := 1000 |} in
  participants (after (removeParticipant "v1" g)) = [] /\
  currentQuantity (after (removeParticipant "v1" g)) = 0 /\
  status (after (removeParticipant "v1" g)) = delivered.
Proof.
  cbv zeta.
  destruct (removeParticipant_any_status
              {| targetQuantity := 5; currentQuantity := 5;
                 maxParticipants := 50;
                 participants := [mkParticipant "v1" 5 0];
                 status := delivered; deadline := 1000 |}
              "v1" 0 (mkParticipant "v1" 5 0))
    as (_ & Hp & _ & Hc & Hs).
  - right. left. reflexivity.
  - reflexivity.
  - exact (conj Hp (conj Hc Hs)).
Defined.

(** ** Sequences of joins and leaves *)

Lemma total_quantity_nonneg ps :
  Forall (fun p => 1 <= quantity p) ps -> 0 <= total_quantity ps.
Proof.
  induction 1 as [|p ps Hp _ IH]; simpl; [lia|].
  fold (total_quantity ps). lia.
Qed.

Lemma vendors_delete_NoDup ps i :
  NoDup (vendors ps) -> NoDup (vendors (delete i ps)).
Proof.
  unfold vendors. intros Hnd.
  apply (sublist_NoDup (vendor <$> delete i ps) (vendor <$> ps) Hnd).
  apply fmap_sublist, sublist_delete.
Qed.

Lemma well_formed_fresh target maxp dl :
  1 <= target -> well_formed (fresh target maxp dl).
Proof.
  intros Ht. split_and!.
  - reflexivity.
  - apply NoDup_nil_2.
  - apply Forall_nil_2.
  - left. simpl. split; [done|lia].
Qed.

Lemma well_formed_call c g :
  at_least_one c -> well_formed g -> well_formed (call c g).
Proof.
  intros Hc (Hq & Hnd & Hpos & Hst).
  destruct c as [now v q|v]; cbn [call at_least_one] in *.
  - split_and!.
    + unfold quantity_consistent.
      rewrite addParticipant_currentQuantity, addParticipant_total_quantity.
      unfold quantity_consistent in Hq. lia.
    + by apply addParticipant_vendors_NoDup.
    + destruct (list_find (isVendor v) (participants g)) as [[i p]|] eqn:Hf.
      * rewrite (addParticipant_existing _ _ _ _ _ _ Hf).
        apply list_find_Some in Hf as (Hi & _ & _).
        apply Forall_insert; [done|]. simpl.
        pose proof (Forall_lookup_1 _ _ _ _ Hpos Hi) as Hp. simpl in Hp. lia.
      * rewrite (addParticipant_new _ _ _ _ Hf).
        apply Forall_app. split; [done|]. by apply Forall_singleton.
    + unfold addParticipant, after. simpl.
      destruct Hst as [[-> Hlt]|[-> Hge]]; simpl.
      * destruct (targetQuantity g <=? currentQuantity g + q) eqn:Hle; simpl.
        -- right. split; [done|]. by apply Z.leb_le.
        -- left. split; [done|]. by apply Z.leb_gt.
      * rewrite andb_false_r. right. split; [done|lia].
  - unfold removeParticipant.
    destruct (list_find (isVendor v) (participants g)) as [[i p]|] eqn:Hf;
      [|done].
    apply list_find_Some in Hf as (Hi & _ & _).
    pose proof (Forall_lookup_1 _ _ _ _ Hpos Hi) as Hp. simpl in Hp.
    unfold after. simpl. split_and!.
    + unfold quantity_consistent. simpl.
      rewrite (total_quantity_delete _ _ _ Hi).
      unfold quantity_consistent in Hq. lia.
    + simpl. by apply vendors_delete_NoDup.
    + simpl. by apply Forall_delete.
    + simpl. destruct Hst as [[-> Hlt]|[-> Hge]]; simpl.
      * rewrite andb_false_r. left. split; [done|lia].
      * destruct (currentQuantity g - quantity p <? targetQuantity g) eqn:Hlt;
          simpl.
        -- left. split; [done|]. by apply Z.ltb_lt.
        -- right. split; [done|]. by apply Z.ltb_ge.
Qed.

Lemma well_formed_calls cs g :
  Forall at_least_one cs -> well_formed g -> well_formed (calls cs g).
Proof.
  unfold calls. intros Hcs. revert g.
  induction Hcs as [|c cs Hc _ IH]; intros g Hg; simpl; [done|].
  apply IH. by apply well_formed_call.
Qed.

(** X1: on a group order created with the defaults (target of 1 or more),
    after any sequence of joins of at least one unit and of leaves, the status
    is [active] or [target_reached], and it is [target_reached] exactly when
    [isTargetReached] holds. *)
Theorem status_tracks_target (target maxp : Z) (dl : Date) (cs : list Call) :
  1 <= target ->
  Forall at_least_one cs ->
  let g := calls cs (fresh target maxp dl) in
  (status g = active \/ status g = target_reached) /\
  (status g = target_reached <-> isTargetReached g = true) /\
  (status g = active <-> isTargetReached g = false).
Proof.
  intros Ht Hcs. cbv zeta.
  destruct (well_formed_calls cs _ Hcs (well_formed_fresh target maxp dl Ht))
    as (_ & _ & _ & Hst).
  unfold isTargetReached.
  destruct Hst as [[Hs Hlt]|[Hs Hge]]; rewrite Hs.
  - split_and!; [by left| |].
    + split; [done|]. intros H%Z.leb_le. lia.
    + split; [|done]. intros _. by apply Z.leb_gt.
  - split_and!; [by right| |].
    + split; [|done]. intros _. by apply Z.leb_le.
    + split; [done|]. intros H%Z.leb_gt. lia.
Qed.

Lemma status_tracks_target_witness :
  let g := calls [Join 1 "v1" 60; Join 2 "v2" 50; Leave "v1"]
             (fresh 100 50 1000) in
  status g = active /\ isTargetReached g = false.
Proof.
  cbv zeta.
  assert (Hcs : Forall at_least_one [Join 1 "v1" 60; Join 2 "v2" 50; Leave "v1"]).
  { repeat constructor; simpl; lia. }
  destruct (status_tracks_target 100 50 1000 _ ltac:(lia) Hcs)
    as (_ & _ & Hact).
  assert (Hs : status (calls [Join 1 "v1" 60; Join 2 "v2" 50; Leave "v1"]
                         (fresh 100 50 1000)) = active) by reflexivity.
  split; [exact Hs|]. by apply Hact.
Defined.

(** X2: on a group order created with the defaults, after any sequence of
    joins of at least one unit and of leaves, no vendor has two entries, every
    entry holds at least one unit, and [currentQuantity] is the sum of the
    entries, hence 0 or more and at least the number of participants. *)
Theorem participants_after_calls (target maxp : Z) (dl : Date)
    (cs : list Call) :
  1 <= target ->
  Forall at_least_one cs ->
  let g := calls cs (fresh target maxp dl) in
  NoDup (vendors (participants g)) /\
  Forall (fun p => 1 <= quantity p) (participants g) /\
  currentQuantity g = total_quantity (participants g) /\
  Z.of_nat (length (participants g)) <= currentQuantity g.
Proof.
  intros Ht Hcs. cbv zeta.
  destruct (well_formed_calls cs _ Hcs (well_formed_fresh target maxp dl Ht))
    as (Hq & Hnd & Hpos & _).
  split_and!; [done..|].
  rewrite Hq. clear Hq Hnd.
  induction Hpos as [|p ps Hp _ IH]; simpl; [lia|].
  fold (total_quantity ps). lia.
Qed.

Lemma participants_after_calls_witness :
  let g := calls [Join 1 "v1" 60; Join 2 "v2" 50; Join 3 "v1" 5]
             (fresh 100 50 1000) in
  NoDup (vendors (participants g)) /\ currentQuantity g = 115.
Proof.
  cbv zeta.
  assert (Hcs : Forall at_least_one
                  [Join 1 "v1" 60; Join 2 "v2" 50; Join 3 "v1" 5]).
  { repeat constructor; simpl; lia. }
  destruct (participants_after_calls 100 50 1000 _ ltac:(lia) Hcs)
    as (Hnd & _ & _ & _).
  split; [exact Hnd|reflexivity].
Defined.

(** X3: a join by a vendor without entry, undone by that vendor's leave, gives
    back the document as it was, in every status, for every quantity and at
    every time, provided the status agreed with the quantity ([active] below
    the target, [target_reached] at or above it). *)
Theorem join_then_leave_restores (g : GroupOrder) (now : Date) (v : ObjectId)
    (q : Z) :
  v ∉ vendors (participants g) ->
  status_agrees g ->
  after (removeParticipant v (after (addParticipant now v q g))) = g.
Proof.
  intros Hv%list_find_isVendor_None [Hact Hreached].
  destruct g as [tq cq mp ps st dl]. simpl in *.
  unfold addParticipant, after. simpl. rewrite Hv. simpl.
  assert (Hfind : list_find (isVendor v) (ps ++ [mkParticipant v q now])
                  = Some (length ps, mkParticipant v q now)).
  { rewrite (list_find_app_r _ _ _ Hv). simpl.
    by rewrite decide_True by done. }
  unfold removeParticipant. simpl. rewrite Hfind. simpl.
  rewrite delete_middle, app_nil_r.
  replace (cq + q - q) with cq by lia. f_equal.
  destruct st; simpl; rewrite ?andb_false_r; try done.
  - specialize (Hact eq_refl).
    destruct (tq <=? cq + q); simpl; [|by rewrite andb_false_r].
    by replace (cq <? tq) with true by (symmetry; apply Z.ltb_lt; lia).
  - specialize (Hreached eq_refl).
    by replace (cq <? tq) with false by (symmetry; apply Z.ltb_ge; lia).
Qed.

Lemma join_then_leave_restores_witness :
  let g := {| targetQuantity := 10; currentQuantity := 12;
              maxParticipants := 50;
              participants := [mkParticipant "v1" 12 0];
              status := ordered; deadline := 1000 |} in
  after (removeParticipant "v2" (after (addParticipant 5 "v2" 7 g))) = g.
Proof.
  cbv zeta. apply join_then_leave_restores.
  - cbn. rewrite not_elem_of_cons. split; [discriminate|apply not_elem_of_nil].
  - split; discriminate.
Defined.

Lemma removeParticipant_vendors v g i p :
  list_find (isVendor v) (participants g) = Some (i, p) ->
  NoDup (vendors (participants g)) ->
  v ∉ vendors (participants (after (removeParticipant v g))).
Proof.
  intros Hf Hnd. unfold removeParticipant, after. rewrite Hf. simpl.
  destruct (list_find_isVendor_Some _ _ _ _ Hf)
    as (l1 & l2 & Hps & <- & Hp & H1).
  rewrite Hps in Hnd |- *. rewrite delete_middle.
  unfold vendors in *. rewrite fmap_app in *. rewrite fmap_cons in Hnd.
  apply NoDup_app in Hnd as (_ & _ & [Hnot _]%NoDup_cons).
  rewrite Hp in Hnot. apply not_elem_of_app. by split.
Qed.

(** X4: where no vendor has two entries, a leave takes the vendor out of the
    participants altogether, so a second leave by the same vendor changes
    nothing: leaving is idempotent. *)
Theorem leave_twice (g : GroupOrder) (v : ObjectId) :
  NoDup (vendors (participants g)) ->
  let g1 := after (removeParticipant v g) in
  (v ∉ vendors (participants g1)) /\
  removeParticipant v g1 = (Normal, g1).
Proof.
  intros Hnd. cbv zeta.
  assert (Hv : v ∉ vendors (participants (after (removeParticipant v g)))).
  { destruct (list_find (isVendor v) (participants g)) as [[i p]|] eqn:Hf.
    - by eapply removeParticipant_vendors.
    - rewrite (removeParticipant_absent _ _ Hf).
      by apply list_find_isVendor_None. }
  split; [done|].
  by apply removeParticipant_absent, list_find_isVendor_None.
Qed.

Lemma leave_twice_witness :
  let g := after (addParticipant 1 "v1" 10 (fresh 100 50 1000)) in
  removeParticipant "v1" (after (removeParticipant "v1" g))
  = (Normal, fresh 100 50 1000).
Proof.
  cbv zeta.
  refine (proj2 (leave_twice
                   (after (addParticipant 1 "v1" 10 (fresh 100 50 1000)))
                   "v1" _)).
  cbn. apply NoDup_singleton.
Defined.

(** ** Progress towards the target *)

Lemma progress_ratio_le t c1 c2 :
  0 < t -> c1 <= c2 ->
  (inject_Z c1 / inject_Z t * 100 <= inject_Z c2 / inject_Z t * 100)%Q.
Proof.
  intros Ht Hc.
  apply Qmult_le_compat_r; [|done].
  apply Qmult_le_compat_r.
  - by rewrite <- Zle_Qle.
  - apply Qinv_le_0_compat. change 0%Q with (inject_Z 0).
    rewrite <- Zle_Qle. lia.
Qed.

Lemma progress_ratio_target t :
  0 < t -> (inject_Z t / inject_Z t * 100 == 100)%Q.
Proof.
  intros Ht. field. change 0%Q with (inject_Z 0).
  rewrite inject_Z_injective. lia.
Qed.

(** X5: with a target of 1 or more, [progressPercentage] is a number, at most
    100, not below 0 when the quantity is not, and 100 exactly when
    [isTargetReached] holds; it does not decrease when the quantity grows. *)
Theorem progressPercentage_bounds (g : GroupOrder) :
  1 <= targetQuantity g ->
  exists q, progressPercentage g = Percent q /\
    (q <= 100)%Q /\
    (0 <= currentQuantity g -> (0 <= q)%Q) /\
    ((q == 100)%Q <-> isTargetReached g = true) /\
    (forall g' q',
       targetQuantity g' = targetQuantity g ->
       currentQuantity g <= currentQuantity g' ->
       progressPercentage g' = Percent q' -> (q <= q')%Q).
Proof.
  intros Ht. unfold progressPercentage, isTargetReached.
  replace (targetQuantity g =? 0) with false by (symmetry; apply Z.eqb_neq; lia).
  eexists. split; [reflexivity|]. split_and!.
  - apply Q.le_min_r.
  - intros Hc. apply Q.min_glb; [|done].
    eapply Qle_trans; [|apply (progress_ratio_le _ 0); lia]. done.
  - split.
    + intros Heq. apply Z.leb_le.
      destruct (Z.le_gt_cases (targetQuantity g) (currentQuantity g))
        as [|Hlt]; [done|exfalso].
      assert (Hr : (inject_Z (currentQuantity g) / inject_Z (targetQuantity g)
                    * 100 < 100)%Q).
      { rewrite <- (progress_ratio_target (targetQuantity g)) at 2 by lia.
        apply Qmult_lt_compat_r; [done|].
        apply Qmult_lt_compat_r.
        - apply Qinv_lt_0_compat. change 0%Q with (inject_Z 0).
          rewrite <- Zlt_Qlt. lia.
        - by rewrite <- Zlt_Qlt. }
      rewrite Q.min_l in Heq by by apply Qlt_le_weak.
      rewrite Heq in Hr. by apply Qlt_irrefl in Hr.
    + intros Hle%Z.leb_le. apply Q.min_r.
      rewrite <- (progress_ratio_target (targetQuantity g)) at 1 by lia.
      apply progress_ratio_le; lia.
  - intros g' q' Htq Hc. unfold progressPercentage. rewrite Htq.
    replace (targetQuantity g =? 0) with false
      by (symmetry; apply Z.eqb_neq; lia).
    intros [= <-]. apply Q.min_le_compat_r. apply progress_ratio_le; lia.
Qed.

Lemma progressPercentage_bounds_witness :
  progressPercentage (after (addParticipant 1 "v1" 25 (fresh 100 50 1000)))
    = Percent (Qmin (inject_Z 25 / inject_Z 100 * 100) 100) /\
  (Qmin (inject_Z 25 / inject_Z 100 * 100) 100 <= 100)%Q.
Proof.
  destruct (progressPercentage_bounds
              (after (addParticipant 1 "v1" 25 (fresh 100 50 1000)))
              ltac:(simpl; lia)) as (q & Hq & Hle & _).
  split; [reflexivity|].
  injection Hq as <-. exact Hle.
Defined.

End GroupOrderFacts.

(** * Properties of order numbers *)

Module OrderFacts.

Import Order.

Local Open Scope Z_scope.

(** ** Checking a property on a range of integers *)

Lemma forallb_seqZ (P : Z -> bool) (lo n : Z) :
  forallb P (seqZ lo n) = true ->
  forall z, lo <= z < lo + n -> P z = true.
Proof.
  intros H z Hz. rewrite forallb_forall in H. apply H.
  apply list_elem_of_In, elem_of_seqZ. lia.
Qed.

Lemma sequence_text_checked :
  forall k, 0 <= k <= 9999 -> sequence_text_check k = true.
Proof.
  intros k Hk. apply (forallb_seqZ sequence_text_check 0 10000); [|lia].
  vm_compute. reflexivity.
Qed.

Lemma sequence_text_digits4 k :
  0 <= k <= 9999 ->
  sequence_text k
    = digits4 (k / 1000) (k / 100 mod 10) (k / 10 mod 10) (k mod 10).
Proof.
  intros Hk%sequence_text_checked. unfold sequence_text_check in Hk.
  repeat (apply andb_prop in Hk as [Hk _]). by apply String.eqb_eq.
Qed.

Lemma parseInt_sequence_text k :
  0 <= k <= 9999 -> parseInt (sequence_text k) = Num k.
Proof.
  intros Hk%sequence_text_checked. unfold sequence_text_check in Hk.
  apply andb_prop in Hk as [Hk _]. apply andb_prop in Hk as [Hk _].
  apply andb_prop in Hk as [_ Hk].
  destruct (parseInt (sequence_text k)); [done|].
  apply Z.eqb_eq in Hk. by subst.
Qed.

Lemma all_digits_sequence_text k :
  0 <= k <= 9999 -> all_digits (sequence_text k) = true.
Proof.
  intros Hk%sequence_text_checked. unfold sequence_text_check in Hk.
  apply andb_prop in Hk as [Hk _]. by apply andb_prop in Hk as [_ Hk].
Qed.

Lemma length_sequence_text k :
  0 <= k <= 9999 -> String.length (sequence_text k) = 4%nat.
Proof.
  intros Hk%sequence_text_checked. unfold sequence_text_check in Hk.
  apply andb_prop in Hk as [_ Hk]. by apply Nat.eqb_eq.
Qed.

Lemma year_text_checked y : 1000 <= y <= 9999 -> year_text_check y = true.
Proof.
  intros Hy. apply (forallb_seqZ year_text_check 1000 9000); [|lia].
  vm_compute. reflexivity.
Qed.

Lemma two_digit_checked n : 0 <= n <= 99 -> two_digit_check n = true.
Proof.
  intros Hn. apply (forallb_seqZ two_digit_check 0 100); [|lia].
  vm_compute. reflexivity.
Qed.

(** ** Strings: length, digits, prefixes and slices of an append *)

Lemma length_append (s t : string) :
  String.length (s +:+ t) = (String.length s + String.length t)%nat.
Proof. induction s as [|c s IH]; simpl; [done|]. by rewrite IH. Qed.

Lemma all_digits_append (s t : string) :
  all_digits (s +:+ t) = all_digits s && all_digits t.
Proof.
  induction s as [|c s IH]; simpl; [done|]. by rewrite IH, andb_assoc.
Qed.

Lemma append_cons (c : ascii) (s t : string) :
  String c s +:+ t = String c (s +:+ t).
Proof. reflexivity. Qed.

Lemma append_assoc (s t u : string) : (s +:+ t) +:+ u = s +:+ (t +:+ u).
Proof.
  induction s as [|c s IH]; [done|]. by rewrite !append_cons, IH.
Qed.

Lemma prefix_append (p s : string) : String.prefix p (p +:+ s) = true.
Proof.
  induction p as [|c p IH]; simpl; [by destruct s|].
  destruct (ascii_dec c c); [exact IH|done].
Qed.

Lemma substring_all (s : string) : String.substring 0 (String.length s) s = s.
Proof. induction s as [|c s IH]; simpl; [done|]. by rewrite IH. Qed.

Lemma substring_append (p s : string) :
  String.substring (String.length p) (String.length s) (p +:+ s) = s.
Proof. induction p as [|c p IH]; simpl; [apply substring_all|exact IH]. Qed.

Lemma slice_last4 (p s : string) :
  String.length s = 4%nat -> slice (-4) (p +:+ s) = s.
Proof.
  intros Hs. unfold slice. rewrite length_append, Hs.
  replace (-4 <? 0) with true by done.
  replace (Z.to_nat (Z.max (Z.of_nat (String.length p + 4) + -4) 0))
    with (String.length p) by lia.
  replace (Z.to_nat (Z.of_nat (String.length p + 4)
                     - Z.max (Z.of_nat (String.length p + 4) + -4) 0))
    with (String.length s) by lia.
  apply substring_append.
Qed.

Lemma compare_append (p s t : string) :
  String.compare (p +:+ s) (p +:+ t) = String.compare s t.
Proof.
  induction p as [|c p IH]; simpl; [done|].
  unfold Ascii.compare. by rewrite N.compare_refl.
Qed.

Lemma compare_digit a b :
  0 <= a <= 9 -> 0 <= b <= 9 -> Ascii.compare (digit a) (digit b) = (a ?= b).
Proof.
  intros Ha Hb. unfold Ascii.compare, digit.
  rewrite !N_ascii_embedding by lia.
  rewrite <- N2Z.inj_compare, !N2Z.inj_add, !Z2N.id by lia.
  apply Z.add_compare_mono_l.
Qed.

Lemma compare_digits4 a1 b1 c1 d1 a2 b2 c2 d2 :
  0 <= a1 <= 9 -> 0 <= b1 <= 9 -> 0 <= c1 <= 9 -> 0 <= d1 <= 9 ->
  0 <= a2 <= 9 -> 0 <= b2 <= 9 -> 0 <= c2 <= 9 -> 0 <= d2 <= 9 ->
  String.compare (digits4 a1 b1 c1 d1) (digits4 a2 b2 c2 d2)
    = (1000 * a1 + 100 * b1 + 10 * c1 + d1
       ?= 1000 * a2 + 100 * b2 + 10 * c2 + d2).
Proof.
  intros. unfold digits4. simpl. rewrite !compare_digit by done.
  symmetry.
  destruct (Z.compare_spec a1 a2);
    [|by apply Z.compare_lt_iff; lia|by apply Z.compare_gt_iff; lia].
  destruct (Z.compare_spec b1 b2);
    [|by apply Z.compare_lt_iff; lia|by apply Z.compare_gt_iff; lia].
  destruct (Z.compare_spec c1 c2);
    [|by apply Z.compare_lt_iff; lia|by apply Z.compare_gt_iff; lia].
  destruct (Z.compare_spec d1 d2);
    [|by apply Z.compare_lt_iff; lia|by apply Z.compare_gt_iff; lia].
  apply Z.compare_eq_iff. lia.
Qed.

Lemma compare_sequence_text k1 k2 :
  0 <= k1 <= 9999 -> 0 <= k2 <= 9999 ->
  String.compare (sequence_text k1) (sequence_text k2) = (k1 ?= k2).
Proof.
  intros H1 H2.
  rewrite (sequence_text_digits4 _ H1), (sequence_text_digits4 _ H2).
  rewrite compare_digits4 by (Z.div_mod_to_equations; lia).
  f_equal; Z.div_mod_to_equations; lia.
Qed.

(** ** The last order of the day *)

Lemma numbered_matches pattern o k :
  numbered pattern o k -> matches pattern o = true.
Proof. intros [_ Ho]. unfold matches. rewrite Ho. apply prefix_append. Qed.

Lemma numbered_inj pattern o k k' :
  numbered pattern o k -> numbered pattern o k' -> k = k'.
Proof.
  intros [Hk Ho] [Hk' Ho']. rewrite Ho in Ho'.
  injection Ho' as Ho'. apply String.app_inj in Ho'.
  pose proof (parseInt_sequence_text k Hk) as Hp.
  rewrite Ho', (parseInt_sequence_text k' Hk') in Hp. congruence.
Qed.

Lemma orderNumber_ltb_numbered pattern a b ka kb :
  numbered pattern a ka -> numbered pattern b kb ->
  orderNumber_ltb a b = (ka <? kb).
Proof.
  intros [Hka Ha] [Hkb Hb]. unfold orderNumber_ltb. rewrite Ha, Hb.
  unfold String.ltb, Z.ltb.
  by rewrite compare_append, compare_sequence_text.
Qed.

Lemma findOne_sorted_desc_None pattern coll :
  findOne_sorted_desc pattern coll = None <->
  (forall o, o ∈ coll -> matches pattern o = false).
Proof.
  induction coll as [|o coll IH]; simpl.
  - split; [|done]. by intros _ o Ho%not_elem_of_nil.
  - destruct (matches pattern o) eqn:Hm.
    + split.
      * by destruct (findOne_sorted_desc pattern coll) as [b|];
          [destruct (orderNumber_ltb o b)|].
      * intros H. specialize (H o (list_elem_of_here _ _)). congruence.
    + rewrite IH. split.
      * intros H x [->|Hx]%elem_of_cons; auto.
      * intros H x Hx. apply H. by apply list_elem_of_further.
Qed.

Lemma findOne_sorted_desc_numbered pattern coll b :
  (forall o, o ∈ coll -> matches pattern o = true ->
             exists k, numbered pattern o k) ->
  findOne_sorted_desc pattern coll = Some b ->
  b ∈ coll /\
  exists kb, numbered pattern b kb /\
             forall o k, o ∈ coll -> numbered pattern o k -> k <= kb.
Proof.
  revert b. induction coll as [|o coll IH]; intros b Hall; simpl; [done|].
  assert (Hrest : forall x, x ∈ coll -> matches pattern x = true ->
                            exists k, numbered pattern x k).
  { intros x Hx. apply Hall. by apply list_elem_of_further. }
  destruct (matches pattern o) eqn:Hm.
  - destruct (Hall o (list_elem_of_here _ _) Hm) as [ko Hko].
    destruct (findOne_sorted_desc pattern coll) as [b'|] eqn:Hbest.
    + destruct (IH b' Hrest eq_refl) as (Hin & kb & Hkb & Hmax).
      rewrite (orderNumber_ltb_numbered _ _ _ _ _ Hko Hkb).
      destruct (ko <? kb) eqn:Hlt; intros [= <-].
      * apply Z.ltb_lt in Hlt. split; [by apply list_elem_of_further|].
        exists kb. split; [done|].
        intros x k [->|Hx]%elem_of_cons Hk.
        -- rewrite (numbered_inj _ _ _ _ Hk Hko). lia.
        -- by apply (Hmax x).
      * apply Z.ltb_ge in Hlt. split; [apply list_elem_of_here|].
        exists ko. split; [done|].
        intros x k [->|Hx]%elem_of_cons Hk.
        -- rewrite (numbered_inj _ _ _ _ Hk Hko). lia.
        -- specialize (Hmax x k Hx Hk). lia.
    + intros [= <-]. split; [apply list_elem_of_here|].
      exists ko. split; [done|].
      intros x k [->|Hx]%elem_of_cons Hk.
      * rewrite (numbered_inj _ _ _ _ Hk Hko). lia.
      * apply numbered_matches in Hk.
        rewrite (proj1 (findOne_sorted_desc_None _ _) Hbest x Hx) in Hk.
        discriminate.
  - intros Hb. destruct (IH b Hrest Hb) as (Hin & kb & Hkb & Hmax).
    split; [by apply list_elem_of_further|]. exists kb. split; [done|].
    intros x k [->|Hx]%elem_of_cons Hk.
    + apply numbered_matches in Hk. congruence.
    + by apply (Hmax x).
Qed.

Lemma findOne_sorted_desc_highest pattern coll m :
  highest pattern coll m ->
  exists b, findOne_sorted_desc pattern coll = Some b /\ b ∈ coll /\
            numbered pattern b m.
Proof.
  intros [(o0 & Hin0 & Hm0) Hall].
  destruct (findOne_sorted_desc pattern coll) as [b|] eqn:Hfind.
  - assert (Hnum : forall o, o ∈ coll -> matches pattern o = true ->
                             exists k, numbered pattern o k).
    { intros o Ho Hmo. destruct (Hall o Ho Hmo) as (k & Hk & _). eauto. }
    destruct (findOne_sorted_desc_numbered _ _ _ Hnum Hfind)
      as (Hin & kb & Hkb & Hmax).
    exists b. split_and!; [done..|].
    destruct (Hall b Hin (numbered_matches _ _ _ Hkb)) as (k & Hk & Hle).
    rewrite (numbered_inj _ _ _ _ Hkb Hk) in *.
    specialize (Hmax o0 m Hin0 Hm0).
    by replace m with k by lia.
  - apply numbered_matches in Hm0.
    rewrite (proj1 (findOne_sorted_desc_None _ _) Hfind o0 Hin0) in Hm0.
    discriminate.
Qed.

Lemma next_sequence_numbered pattern b m :
  numbered pattern b m -> next_sequence (Some b) = Num (m + 1).
Proof.
  intros [Hm Hb]. unfold next_sequence. rewrite Hb. simpl.
  rewrite slice_last4 by by apply length_sequence_text.
  by rewrite parseInt_sequence_text.
Qed.

Lemma dateStr_format date :
  valid_date date ->
  String.length (dateStr date) = 8%nat /\ all_digits (dateStr date) = true.
Proof.
  intros (Hy & Hm & Hd). unfold dateStr.
  pose proof (year_text_checked _ Hy) as [Hy1 Hy2]%andb_prop.
  pose proof (two_digit_checked (getMonth date + 1) ltac:(lia))
    as [Hm1 Hm2]%andb_prop.
  pose proof (two_digit_checked (getDate date) ltac:(lia))
    as [Hd1 Hd2]%andb_prop.
  apply Nat.eqb_eq in Hy1, Hm1, Hd1.
  rewrite !length_append, !all_digits_append, Hy1, Hm1, Hd1, Hy2, Hm2, Hd2.
  done.
Qed.

(** ** The hook *)

Lemma pre_save_keeps date coll this :
  no_orderNumber this = false -> pre_save date coll this = this.
Proof. intros H. unfold pre_save. by rewrite H. Qed.

Lemma pre_save_first date coll this :
  no_orderNumber this = true ->
  (forall o, o ∈ coll -> matches (day_prefix date) o = false) ->
  orderNumber (pre_save date coll this) = Some (day_prefix date +:+ "0001").
Proof.
  intros Hno Hnone. unfold pre_save. rewrite Hno.
  apply findOne_sorted_desc_None in Hnone. unfold day_prefix in *.
  rewrite Hnone. simpl. by rewrite append_assoc.
Qed.

Lemma pre_save_next date coll this m :
  no_orderNumber this = true ->
  highest (day_prefix date) coll m ->
  orderNumber (pre_save date coll this)
    = Some (day_prefix date +:+ padStart 4 "0" (Number_toString (Num (m + 1)))).
Proof.
  intros Hno Hhigh. unfold pre_save. rewrite Hno.
  destruct (findOne_sorted_desc_highest _ _ _ Hhigh) as (b & Hb & _ & Hnum).
  unfold day_prefix in *. rewrite Hb.
  rewrite (next_sequence_numbered _ _ _ Hnum). simpl. by rewrite append_assoc.
Qed.

(** C5 fails at the end of the range: after sequence 9999 the hook assigns a
    sequence of five digits, so the number is not "VC", eight digits and four
    digits. *)
Lemma sequence_after_9999 :
  let date := mkDate 2024 4 1 in
  let coll := [mkOrder (Some "VC202405019999")] in
  let saved := pre_save date coll (mkOrder None) in
  valid_date date /\
  highest (day_prefix date) coll 9999 /\
  orderNumber saved = Some "VC2024050110000" /\
  (forall ds sq, String.length ds = 8%nat -> String.length sq = 4%nat ->
                 orderNumber saved <> Some ("VC" +:+ ds +:+ sq)).
Proof.
  cbv zeta. split_and!.
  - unfold valid_date. simpl. lia.
  - split.
    + eexists. split; [apply list_elem_of_here|]. split; [lia|reflexivity].
    + intros o ->%list_elem_of_singleton _. exists 9999.
      split; [|lia]. split; [lia|reflexivity].
  - vm_compute. reflexivity.
  - intros ds sq Hds Hsq H.
    assert (Hs : orderNumber (pre_save (mkDate 2024 4 1)
                                [mkOrder (Some "VC202405019999")]
                                (mkOrder None))
                 = Some "VC2024050110000") by (vm_compute; reflexivity).
    rewrite Hs in H. injection H as H.
    apply (f_equal String.length) in H.
    rewrite !length_append, Hds, Hsq in H. simpl in H. lia.
Qed.

(** C5, amended: on a date with a year of four digits the date text has eight
    digits; an order without number gets "VC", the date text and "0001" when
    the collection holds no number of that day, and, when the numbers of that
    day all have the generated form and the highest sequence [m] is below
    9999, the four digits of [m + 1], a number above all of that day; an order
    that has a number keeps it. *)
Theorem pre_save_orderNumber (date : Date) (coll : list Order) (this : Order) :
  valid_date date ->
  (String.length (dateStr date) = 8%nat /\ all_digits (dateStr date) = true) /\
  (no_orderNumber this = true ->
   (forall o, o ∈ coll -> matches (day_prefix date) o = false) ->
   orderNumber (pre_save date coll this)
     = Some ("VC" +:+ dateStr date +:+ "0001")) /\
  (forall m,
     no_orderNumber this = true ->
     highest (day_prefix date) coll m -> m < 9999 ->
     orderNumber (pre_save date coll this)
       = Some ("VC" +:+ dateStr date +:+ sequence_text (m + 1)) /\
     String.length (sequence_text (m + 1)) = 4%nat /\
     all_digits (sequence_text (m + 1)) = true /\
     parseInt (sequence_text (m + 1)) = Num (m + 1) /\
     (forall o, o ∈ coll -> matches (day_prefix date) o = true ->
                orderNumber_ltb o (pre_save date coll this) = true)) /\
  (no_orderNumber this = false -> pre_save date coll this = this).
Proof.
  intros Hdate. split_and!.
  - by apply dateStr_format.
  - by apply dateStr_format.
  - intros Hno Hnone. rewrite (pre_save_first _ _ _ Hno Hnone).
    unfold day_prefix. by rewrite append_assoc.
  - intros m Hno Hhigh Hm.
    assert (Hm0 : 0 <= m).
    { destruct Hhigh as [(o & _ & [Hk _]) _]. lia. }
    pose proof (pre_save_next _ _ _ _ Hno Hhigh) as Hnext.
    fold (sequence_text (m + 1)) in Hnext.
    split_and!.
    + rewrite Hnext. unfold day_prefix. by rewrite append_assoc.
    + apply length_sequence_text. lia.
    + apply all_digits_sequence_text. lia.
    + apply parseInt_sequence_text. lia.
    + intros o Ho Hmatch. destruct Hhigh as [_ Hall].
      destruct (Hall o Ho Hmatch) as (k & Hk & Hle).
      rewrite (orderNumber_ltb_numbered (day_prefix date) _ _ k (m + 1));
        [apply Z.ltb_lt; lia|done|].
      split; [lia|exact Hnext].
  - apply pre_save_keeps.
Qed.

(** On 1 May 2024, after sequences 7 and 12, the hook assigns 13. *)
Lemma pre_save_orderNumber_witness :
  let date := mkDate 2024 4 1 in
  let coll := [mkOrder (Some "VC202405010007");
               mkOrder (Some "VC202405010012");
               mkOrder (Some "VC202404300099")] in
  orderNumber (pre_save date [] (mkOrder None)) = Some "VC202405010001" /\
  orderNumber (pre_save date coll (mkOrder None)) = Some "VC202405010013" /\
  pre_save date coll (mkOrder (Some "VC202405010007"))
    = mkOrder (Some "VC202405010007").
Proof.
  cbv zeta.
  assert (Hd : valid_date (mkDate 2024 4 1)) by (unfold valid_date; simpl; lia).
  split_and!.
  - refine (proj1 (proj2 (pre_save_orderNumber _ [] (mkOrder None) Hd))
              eq_refl _).
    by intros o Ho%not_elem_of_nil.
  - refine (proj1 (proj1 (proj2 (proj2
              (pre_save_orderNumber _ _ (mkOrder None) Hd))) 12 eq_refl _ _)).
    + split.
      * exists (mkOrder (Some "VC202405010012")).
        split; [apply list_elem_of_further, list_elem_of_here|].
        split; [lia|reflexivity].
      * intros o Ho Hmatch.
        repeat (apply elem_of_cons in Ho as [->|Ho]).
        -- exists 7. split; [|lia]. split; [lia|reflexivity].
        -- exists 12. split; [|lia]. split; [lia|reflexivity].
        -- vm_compute in Hmatch. discriminate.
        -- by apply not_elem_of_nil in Ho.
    + lia.
  - refine (proj2 (proj2 (proj2
              (pre_save_orderNumber _ _ (mkOrder (Some "VC202405010007")) Hd)))
              eq_refl).
Defined.


Lemma no_orderNumber_pre_save date coll this :
  no_orderNumber (pre_save date coll this) = false.
Proof.
  unfold pre_save. destruct (no_orderNumber this) eqn:Hno; [|done].
  unfold no_orderNumber. simpl. reflexivity.
Qed.







(** ** Savings *)

Lemma calculateSavings_from items : forall a : Q,
  (fold_left (fun totalSavings item =>
                totalSavings + discountApplied item * quantity item)
     items a
   == a + calculateSavings items)%Q.
Proof.
  unfold calculateSavings.
  induction items as [|x items IH]; intros a; simpl; [ring|].
  rewrite IH, (IH (0 + _)%Q). ring.
Qed.

Lemma calculateSavings_cons x items :
  (calculateSavings (x :: items)
   == discountApplied x * quantity x + calculateSavings items)%Q.
Proof.
  unfold calculateSavings at 1. simpl. rewrite calculateSavings_from. ring.
Qed.

(** X6: the savings of an order add up over its items: those of two item lists
    put together are the sum of the savings of each, and the order of the
    items does not matter. *)
Theorem calculateSavings_additive (items1 items2 : list Item) :
  (calculateSavings (items1 ++ items2)
   == calculateSavings items1 + calculateSavings items2)%Q /\
  (items1 ≡ₚ items2 ->
   (calculateSavings items1 == calculateSavings items2)%Q).
Proof.
  split.
  - induction items1 as [|x items1 IH]; simpl.
    + unfold calculateSavings at 2. simpl. ring.
    + rewrite !calculateSavings_cons, IH. ring.
  - induction 1 as [|x l l' _ IH|x y l|l l' l'' _ IH1 _ IH2].
    + reflexivity.
    + by rewrite !calculateSavings_cons, IH.
    + rewrite !calculateSavings_cons. ring.
    + by rewrite IH1.
Qed.

Lemma calculateSavings_additive_witness :
  (calculateSavings [mkItem 3 2; mkItem 10 (1 # 2)]
   == calculateSavings [mkItem 10 (1 # 2); mkItem 3 2])%Q.
Proof.
  apply (proj2 (calculateSavings_additive _ _)). apply Permutation_swap.
Defined.

(** X7: the savings are 0 for an order without items and for one whose items
    all have the default discount of 0; they are never negative when no
    discount and no quantity is. *)
Theorem calculateSavings_bounds (items : list Item) :
  (calculateSavings [] == 0)%Q /\
  (Forall (fun item => (discountApplied item == 0)%Q) items ->
   (calculateSavings items == 0)%Q) /\
  (Forall (fun item => (0 <= discountApplied item)%Q /\ (0 <= quantity item)%Q)
     items ->
   (0 <= calculateSavings items)%Q).
Proof.
  split_and!.
  - reflexivity.
  - induction 1 as [|x l Hx _ IH]; [reflexivity|].
    rewrite calculateSavings_cons, IH, Hx. ring.
  - induction 1 as [|x l [Hd Hq] _ IH]; [by compute|].
    rewrite calculateSavings_cons.
    pose proof (Qmult_le_0_compat _ _ Hd Hq). lra.
Qed.

Lemma calculateSavings_bounds_witness :
  (calculateSavings [mkItem 3 0; mkItem 10 0] == 0)%Q /\
  (0 <= calculateSavings [mkItem 3 2; mkItem 10 (1 # 2)])%Q.
Proof.
  split.
  - apply (proj1 (proj2 (calculateSavings_bounds _))).
    repeat constructor; simpl; reflexivity.
  - apply (proj2 (proj2 (calculateSavings_bounds _))).
    repeat constructor; simpl; by compute.
Defined.

(** ** What every run of the hook gives *)

Lemma length_pad_fill n cur padString :
  padString <> "" -> String.length (pad_fill n cur padString) = n.
Proof.
  intros Hne. revert cur. induction n as [|n IH]; intros cur; simpl; [done|].
  destruct cur as [|c rest]; simpl.
  - destruct padString as [|c rest]; [done|]. simpl. by rewrite IH.
  - by rewrite IH.
Qed.

Lemma length_padStart n padString s :
  padString <> "" ->
  String.length (padStart n padString s) = Nat.max n (String.length s).
Proof.
  intros Hne. unfold padStart.
  rewrite length_append, length_pad_fill by done. lia.
Qed.

(** X8: a number, once assigned, is never reassigned: running the hook again
    on its own result changes nothing, on whatever day and against whatever
    collection the later save happens. *)
Theorem pre_save_idempotent (date date' : Date) (coll coll' : list Order)
    (this : Order) :
  pre_save date' coll' (pre_save date coll this) = pre_save date coll this.
Proof. apply pre_save_keeps, no_orderNumber_pre_save. Qed.

(** X9: whatever the collection holds, well formed or not, and whatever the
    date, the hook leaves every order with a number that is not empty; the
    number it assigns starts with "VC" and the date text and has at least
    four characters after them. *)
Theorem pre_save_always_numbers (date : Date) (coll : list Order)
    (this : Order) :
  no_orderNumber (pre_save date coll this) = false /\
  (no_orderNumber this = true ->
   exists sequence,
     orderNumber (pre_save date coll this)
       = Some ("VC" +:+ dateStr date +:+ sequence) /\
     (4 <= String.length sequence)%nat /\
     matches (day_prefix date) (pre_save date coll this) = true).
Proof.
  split; [apply no_orderNumber_pre_save|].
  intros Hno. unfold pre_save. rewrite Hno. simpl.
  eexists. split_and!.
  - reflexivity.
  - rewrite length_padStart by done. lia.
  - unfold matches, day_prefix. simpl.
    rewrite <- append_assoc. apply prefix_append.
Qed.

Lemma pre_save_always_numbers_witness :
  exists sequence,
    orderNumber (pre_save (mkDate 2024 4 1) [mkOrder (Some "VC20240501-X1")]
                   (mkOrder None))
      = Some ("VC" +:+ dateStr (mkDate 2024 4 1) +:+ sequence) /\
    (4 <= String.length sequence)%nat.
Proof.
  destruct (proj2 (pre_save_always_numbers (mkDate 2024 4 1)
                     [mkOrder (Some "VC20240501-X1")] (mkOrder None))
              eq_refl) as (sequence & Hnum & Hlen & _).
  exists sequence. by split.
Defined.

(** ** Runs of the hook one after the other *)

Lemma numbered_order_numbered date k :
  Z.of_nat k <= 9999 ->
  numbered (day_prefix date) (order_numbered date k) (Z.of_nat k).
Proof. intros Hk. split; [lia|reflexivity]. Qed.

Lemma elem_of_orders_upto date k o :
  o ∈ orders_upto date k <->
  exists j, (1 <= j <= k)%nat /\ o = order_numbered date j.
Proof.
  unfold orders_upto. rewrite list_elem_of_fmap. split.
  - intros (j & -> & Hj%elem_of_seq). exists j. split; [lia|done].
  - intros (j & Hj & ->). exists j. split; [done|]. apply elem_of_seq. lia.
Qed.

Lemma length_orders_upto date k : length (orders_upto date k) = k.
Proof. unfold orders_upto. by rewrite length_fmap, length_seq. Qed.

Lemma orders_upto_S date k :
  orders_upto date (S k) = orders_upto date k ++ [order_numbered date (S k)].
Proof. unfold orders_upto. by rewrite seq_S, fmap_app. Qed.

Lemma highest_orders_upto date k :
  (1 <= k)%nat /\ Z.of_nat k <= 9999 ->
  highest (day_prefix date) (orders_upto date k) (Z.of_nat k).
Proof.
  intros [Hk1 Hk]. split.
  - exists (order_numbered date k). split.
    + apply elem_of_orders_upto. exists k. split; [lia|done].
    + apply numbered_order_numbered. lia.
  - intros o (j & Hj & ->)%elem_of_orders_upto _. exists (Z.of_nat j).
    split; [apply numbered_order_numbered|]; lia.
Qed.

Lemma pre_save_orders_upto date k :
  Z.of_nat k < 9999 ->
  pre_save date (orders_upto date k) (mkOrder None)
  = order_numbered date (S k).
Proof.
  intros Hk.
  assert (H : orderNumber (pre_save date (orders_upto date k) (mkOrder None))
              = orderNumber (order_numbered date (S k))).
  { destruct k as [|k].
    - rewrite pre_save_first; [done..|].
      by intros o Ho%not_elem_of_nil.
    - rewrite (pre_save_next _ _ _ (Z.of_nat (S k))); [|done|].
      + by replace (Z.of_nat (S k) + 1) with (Z.of_nat (S (S k))) by lia.
      + apply highest_orders_upto. lia. }
  destruct (pre_save date (orders_upto date k) (mkOrder None)).
  simpl in H. by subst.
Qed.

Lemma order_numbered_fresh date k :
  Z.of_nat k < 9999 ->
  orderNumber (order_numbered date (S k)) ∉ numbers (orders_upto date k).
Proof.
  intros Hk (o & Ho & (j & Hj & ->)%elem_of_orders_upto)%list_elem_of_fmap.
  assert (Z.of_nat j = Z.of_nat (S k)); [|lia].
  apply (numbered_inj (day_prefix date) (order_numbered date j)).
  - apply numbered_order_numbered. lia.
  - split; [lia|]. by rewrite <- Ho.
Qed.

Lemma below_last_orders_upto date k :
  Z.of_nat k < 9999 -> below_last date (orders_upto date k).
Proof.
  intros Hk. destruct k as [|k].
  - left. by intros o Ho%not_elem_of_nil.
  - right. exists (Z.of_nat (S k)). split; [|done].
    apply highest_orders_upto. lia.
Qed.

Lemma allocate_in_turn_from date n : forall m k,
  (k + m = n)%nat -> Z.of_nat n <= 9999 ->
  allocate_in_turn date (replicate m (mkOrder None)) (orders_upto date k)
  = orders_upto date n.
Proof.
  unfold allocate_in_turn.
  induction m as [|m IH]; intros k Hkm Hn.
  - replace k with n by lia. done.
  - cbn [replicate foldl].
    rewrite pre_save_orders_upto, <- orders_upto_S by lia. apply IH; lia.
Qed.

Lemma NoDup_numbers_orders_upto date k :
  Z.of_nat k <= 9999 -> NoDup (numbers (orders_upto date k)).
Proof.
  induction k as [|k IH]; intros Hk; [apply NoDup_nil_2|].
  rewrite orders_upto_S. unfold numbers. rewrite fmap_app.
  apply NoDup_app. split_and!.
  - apply IH. lia.
  - intros x Hx ->%list_elem_of_singleton.
    apply (order_numbered_fresh date k); [lia|done].
  - apply NoDup_singleton.
Qed.

(** X10: runs of the hook that follow each other number in sequence: when
    the hook is run for up to 9999 new orders of one day, each numbered order
    being in the collection the next run reads and the collection empty at
    first, the orders get the numbers 1, 2, ... in the order of the runs, all
    distinct. *)
Theorem allocate_in_turn_numbered (date : Date) (n : nat) :
  Z.of_nat n <= 9999 ->
  allocate_in_turn date (replicate n (mkOrder None)) [] = orders_upto date n /\
  NoDup (numbers (allocate_in_turn date (replicate n (mkOrder None)) [])).
Proof.
  intros Hn.
  assert (H : allocate_in_turn date (replicate n (mkOrder None)) []
              = orders_upto date n).
  { apply (allocate_in_turn_from date n n 0); lia. }
  split; [exact H|]. rewrite H. by apply NoDup_numbers_orders_upto.
Qed.

Lemma allocate_in_turn_numbered_witness :
  allocate_in_turn (mkDate 2024 4 1) (replicate 3 (mkOrder None)) []
  = [mkOrder (Some "VC202405010001"); mkOrder (Some "VC202405010002");
     mkOrder (Some "VC202405010003")].
Proof.
  rewrite (proj1 (allocate_in_turn_numbered (mkDate 2024 4 1) 3 ltac:(lia))).
  reflexivity.
Defined.

(** ** The order of the sort, and the last number of a day *)

Lemma compare_lt_trans (a : string) : forall b c : string,
  String.compare a b = Lt -> String.compare b c = Lt ->
  String.compare a c = Lt.
Proof.
  induction a as [|x a IH]; intros [|y b] [|z c]; simpl; try done.
  unfold Ascii.compare.
  destruct (N.compare_spec (N_of_ascii x) (N_of_ascii y)) as [Hxy|Hxy|Hxy];
    try done;
    destruct (N.compare_spec (N_of_ascii y) (N_of_ascii z)) as [Hyz|Hyz|Hyz];
    try done;
    destruct (N.compare_spec (N_of_ascii x) (N_of_ascii z)) as [Hxz|Hxz|Hxz];
    try done; try lia.
  apply IH.
Qed.

Lemma ltb_asym (s t : string) : String.ltb s t = true -> String.ltb t s = false.
Proof.
  unfold String.ltb. rewrite (String.compare_antisym s t).
  by destruct (String.compare t s).
Qed.

Lemma ltb_false_trans (s t u : string) :
  String.ltb s t = false -> String.ltb t u = false -> String.ltb s u = false.
Proof.
  unfold String.ltb. intros Hst Htu.
  destruct (String.compare s u) eqn:Hsu; try done.
  destruct (String.compare s t) eqn:Hst'; try done.
  - apply String.compare_eq_iff in Hst'. subst t. by rewrite Hsu in Htu.
  - rewrite String.compare_antisym in Hst'.
    destruct (String.compare t s) eqn:Hts; try done.
    by rewrite (compare_lt_trans _ _ _ Hts Hsu) in Htu.
Qed.

Lemma compare_refl (s : string) : String.compare s s = Eq.
Proof.
  induction s as [|c s IH]; simpl; [done|].
  unfold Ascii.compare. by rewrite N.compare_refl.
Qed.

Lemma orderNumber_ltb_irrefl o : orderNumber_ltb o o = false.
Proof.
  unfold orderNumber_ltb, String.ltb.
  destruct (orderNumber o) as [s|]; [|done]. by rewrite compare_refl.
Qed.

Lemma findOne_sorted_desc_max pattern coll b :
  findOne_sorted_desc pattern coll = Some b ->
  b ∈ coll /\ matches pattern b = true /\
  forall o, o ∈ coll -> matches pattern o = true -> orderNumber_ltb b o = false.
Proof.
  revert b. induction coll as [|x coll IH]; intros b; simpl; [done|].
  destruct (matches pattern x) eqn:Hx.
  - destruct (findOne_sorted_desc pattern coll) as [b'|] eqn:Hbest.
    + destruct (IH b' eq_refl) as (Hin & Hm & Hmax).
      destruct (orderNumber_ltb x b') eqn:Hlt; intros [= <-].
      * split_and!; [by apply list_elem_of_further|done|].
        intros o [Heq|Ho]%elem_of_cons Hmo; [subst o|by apply Hmax].
        unfold orderNumber_ltb in *.
        destruct (orderNumber x), (orderNumber b'); try done.
        by apply ltb_asym.
      * split_and!; [apply list_elem_of_here|done|].
        intros o [Heq|Ho]%elem_of_cons Hmo;
          [subst o; apply orderNumber_ltb_irrefl|].
        specialize (Hmax o Ho Hmo). unfold orderNumber_ltb, matches in *.
        destruct (orderNumber x), (orderNumber b'), (orderNumber o);
          try done.
        by eapply ltb_false_trans.
    + intros [= <-]. split_and!; [apply list_elem_of_here|done|].
      intros o [Heq|Ho]%elem_of_cons Hmo;
        [subst o; apply orderNumber_ltb_irrefl|].
      rewrite (proj1 (findOne_sorted_desc_None _ _) Hbest o Ho) in Hmo.
      discriminate.
  - intros Hb. destruct (IH b Hb) as (Hin & Hm & Hmax).
    split_and!; [by apply list_elem_of_further|done|].
    intros o [Heq|Ho]%elem_of_cons Hmo; [congruence|by apply Hmax].
Qed.

(** X11: a day takes 9999 numbers of four digits and one more. Once the
    number with sequence 9999 is in the collection, beside numbers the hook
    generated, the hook gives every new order of that day the number with the
    five digits 10000; once that one is in the collection too, the hook still
    assigns it: the number it gives is one the collection holds. *)
Theorem last_number_of_the_day (date : Date) (coll : list Order)
    (this : Order) :
  no_orderNumber this = true ->
  (exists o, o ∈ coll /\ orderNumber o = Some (day_prefix date +:+ "9999")) ->
  (forall o, o ∈ coll -> matches (day_prefix date) o = true ->
     (exists k, numbered (day_prefix date) o k) \/
     orderNumber o = Some (day_prefix date +:+ "10000")) ->
  orderNumber (pre_save date coll this)
    = Some (day_prefix date +:+ "10000") /\
  (Some (day_prefix date +:+ "10000") ∈ numbers coll ->
   orderNumber (pre_save date coll this) ∈ numbers coll).
Proof.
  intros Hno (o9 & Hin9 & Ho9) Hall.
  assert (Hnum9 : numbered (day_prefix date) o9 9999).
  { split; [lia|]. by rewrite Ho9. }
  assert (Hpre : orderNumber (pre_save date coll this)
                 = Some (day_prefix date +:+ "10000")).
  { unfold pre_save. rewrite Hno. fold (day_prefix date).
    destruct (findOne_sorted_desc (day_prefix date) coll) as [b|] eqn:Hfind.
    - destruct (findOne_sorted_desc_max _ _ _ Hfind) as (Hin & Hm & Hmax).
      specialize (Hmax o9 Hin9 (numbered_matches _ _ _ Hnum9)).
      destruct (Hall b Hin Hm) as [[k Hk]|Hb].
      + rewrite (orderNumber_ltb_numbered _ _ _ _ _ Hk Hnum9) in Hmax.
        apply Z.ltb_ge in Hmax. destruct Hk as [Hk9 Hbk].
        assert (k = 9999) as -> by lia.
        rewrite (next_sequence_numbered (day_prefix date) b 9999);
          [|by split].
        simpl. unfold day_prefix. by rewrite append_assoc.
      + unfold orderNumber_ltb in Hmax. rewrite Hb, Ho9 in Hmax.
        unfold String.ltb in Hmax. rewrite compare_append in Hmax.
        discriminate.
    - apply numbered_matches in Hnum9.
      rewrite (proj1 (findOne_sorted_desc_None _ _) Hfind o9 Hin9) in Hnum9.
      discriminate. }
  split; [exact Hpre|]. by rewrite Hpre.
Qed.

Lemma last_number_of_the_day_witness :
  orderNumber (pre_save (mkDate 2024 4 1)
                 [mkOrder (Some "VC202405019998");
                  mkOrder (Some "VC2024050110000");
                  mkOrder (Some "VC202405019999")] (mkOrder None))
  = Some "VC2024050110000".
Proof.
  refine (proj1 (last_number_of_the_day (mkDate 2024 4 1) _ (mkOrder None)
                   eq_refl _ _)).
  - exists (mkOrder (Some "VC202405019999")). split; [|reflexivity].
    do 2 apply list_elem_of_further. apply list_elem_of_here.
  - intros o Ho _. repeat (apply elem_of_cons in Ho as [->|Ho]).
    + left. exists 9998. split; [lia|reflexivity].
    + right. reflexivity.
    + left. exists 9999. split; [lia|reflexivity].
    + by apply not_elem_of_nil in Ho.
Defined.

End OrderFacts.

(** * Properties of bulk prices *)

Module ProductFacts.

Import Product.

Local Open Scope Q_scope.

(** ** The loop *)

Lemma Qlt_bool_iff a b : Qlt_bool a b = true <-> a < b.
Proof.
  unfold Qlt_bool. rewrite negb_true_iff, <- not_true_iff_false, Qle_bool_iff.
  split; [apply Qnot_le_lt|apply Qlt_not_le].
Qed.

Lemma consider_cases quantity a d :
  (met quantity d /\ a < discountPercentage d /\
   consider quantity a d = discountPercentage d) \/
  (~ (met quantity d /\ a < discountPercentage d) /\
   consider quantity a d = a).
Proof.
  unfold consider, met.
  destruct (Qle_bool (minQuantity d) quantity) eqn:Hm;
    destruct (Qlt_bool a (discountPercentage d)) eqn:Hl; simpl.
  - left. by rewrite <- Qle_bool_iff, <- Qlt_bool_iff.
  - right. split; [|done]. intros [_ H%Qlt_bool_iff]. congruence.
  - right. split; [|done]. intros [H%Qle_bool_iff _]. congruence.
  - right. split; [|done]. intros [H%Qle_bool_iff _]. congruence.
Qed.

Lemma applicable_from_ge_start quantity ds : forall a,
  a <= applicable_from quantity a ds.
Proof.
  unfold applicable_from. induction ds as [|d ds IH]; intros a; simpl.
  - apply Qle_refl.
  - eapply Qle_trans; [|apply IH].
    destruct (consider_cases quantity a d) as [(_ & Hlt & ->)|[_ ->]].
    + by apply Qlt_le_weak.
    + apply Qle_refl.
Qed.

Lemma applicable_from_upper quantity ds : forall a d,
  d ∈ ds -> met quantity d ->
  discountPercentage d <= applicable_from quantity a ds.
Proof.
  induction ds as [|x ds IH]; intros a d Hin Hmet.
  - by apply not_elem_of_nil in Hin.
  - apply elem_of_cons in Hin as [->|Hin].
    + unfold applicable_from. simpl.
      eapply Qle_trans; [|apply applicable_from_ge_start].
      destruct (consider_cases quantity a x) as [(_ & _ & ->)|[Hn ->]].
      * apply Qle_refl.
      * apply Qnot_lt_le. tauto.
    + unfold applicable_from. simpl. by apply IH.
Qed.

Lemma applicable_from_attained quantity ds : forall a,
  applicable_from quantity a ds = a \/
  exists d, d ∈ ds /\ met quantity d /\
            applicable_from quantity a ds = discountPercentage d.
Proof.
  induction ds as [|x ds IH]; intros a; [by left|].
  unfold applicable_from in *. simpl.
  destruct (IH (consider quantity a x)) as [->|(d & Hin & Hmet & ->)].
  - destruct (consider_cases quantity a x) as [(Hmet & _ & ->)|[_ ->]].
    + right. exists x. split; [apply list_elem_of_here|done].
    + by left.
  - right. exists d. split; [by apply list_elem_of_further|done].
Qed.

Lemma applicable_from_mono q1 q2 a ds :
  q1 <= q2 -> applicable_from q1 a ds <= applicable_from q2 a ds.
Proof.
  intros Hq.
  destruct (applicable_from_attained q1 ds a) as [->|(d & Hin & Hmet & ->)].
  - apply applicable_from_ge_start.
  - apply applicable_from_upper; [done|].
    unfold met in *. by eapply Qle_trans.
Qed.

Lemma applicable_from_range quantity (this : Product) :
  percentages_in_range this ->
  0 <= applicable_from quantity 0 (bulkDiscounts this) /\
  applicable_from quantity 0 (bulkDiscounts this) <= 100.
Proof.
  intros Hr.
  destruct (applicable_from_attained quantity (bulkDiscounts this) 0)
    as [->|(d & Hin & _ & ->)]; [split; by compute|by apply Hr].
Qed.

(** ** The bulk price *)

Lemma getBulkPrice_no_discount quantity (this : Product) :
  (forall d, d ∈ bulkDiscounts this -> ~ met quantity d) ->
  getBulkPrice quantity this == price this.
Proof.
  intros Hnone. unfold getBulkPrice.
  destruct (applicable_from_attained quantity (bulkDiscounts this) 0)
    as [->|(d & Hin & Hmet & _)]; [|by destruct (Hnone d Hin)].
  field.
Qed.

Lemma getBulkPrice_unfold quantity (this : Product) :
  getBulkPrice quantity this
  == price this
     * (1 - applicable_from quantity 0 (bulkDiscounts this) * (1 # 100)).
Proof. unfold getBulkPrice. field. Qed.

(** C10 fails in "exactly when": a discount of 0 percent, which the schema
    admits, is met and the price is still the base price. *)
Lemma zero_percent_discount_met :
  let this := {| price := 100;
                 bulkDiscounts := [mkBulkDiscount 1 0] |} in
  percentages_in_range this /\
  (exists d, d ∈ bulkDiscounts this /\ met 5 d) /\
  getBulkPrice 5 this == price this.
Proof.
  cbv zeta. split_and!.
  - intros d ->%list_elem_of_singleton. simpl. split; by compute.
  - exists (mkBulkDiscount 1 0). split; [apply list_elem_of_here|by compute].
  - by compute.
Qed.

(** C10, amended: for a product with a price of 0 or more and percentages
    between 0 and 100, the discount applied is the largest percentage among
    the discounts met (0 when none is met); the bulk price does not increase
    with the quantity, lies between 0 and the base price, equals the base
    price when no discount is met, and equals it if and only if the price is
    0 or every discount met has 0 percent. *)
Theorem getBulkPrice_properties (this : Product) :
  0 <= price this ->
  percentages_in_range this ->
  (forall q,
     let applied := applicable_from q 0 (bulkDiscounts this) in
     getBulkPrice q this == price this * (1 - applied / 100) /\
     (forall d, d ∈ bulkDiscounts this -> met q d ->
                discountPercentage d <= applied) /\
     ((exists d, d ∈ bulkDiscounts this /\ met q d /\
                 applied == discountPercentage d) \/
      (applied = 0 /\
       forall d, d ∈ bulkDiscounts this -> ~ met q d))) /\
  (forall q1 q2, q1 <= q2 -> getBulkPrice q2 this <= getBulkPrice q1 this) /\
  (forall q, 0 <= getBulkPrice q this /\ getBulkPrice q this <= price this) /\
  (forall q, (forall d, d ∈ bulkDiscounts this -> ~ met q d) ->
             getBulkPrice q this == price this) /\
  (forall q, getBulkPrice q this == price this <->
             price this == 0 \/
             forall d, d ∈ bulkDiscounts this -> met q d ->
                       discountPercentage d == 0).
Proof.
  intros Hprice Hrange. split_and!.
  - intros q. cbv zeta. split_and!.
    + reflexivity.
    + intros d Hin Hmet. by apply applicable_from_upper.
    + destruct (applicable_from_attained q (bulkDiscounts this) 0)
        as [H0|(d & Hin & Hmet & Hd)].
      * destruct (decide (Exists (fun d => Qle_bool (minQuantity d) q = true)
                                 (bulkDiscounts this))) as [Hex|Hnex].
        -- apply Exists_exists in Hex as (d & Hin & Hmet%Qle_bool_iff).
           left. exists d. split_and!; [done..|].
           pose proof (applicable_from_upper q _ 0 d Hin Hmet) as Hle.
           destruct (Hrange d Hin) as [Hge _].
           rewrite H0 in Hle |- *. by apply Qle_antisym.
        -- right. split; [done|]. intros d Hin Hmet. apply Hnex.
           apply Exists_exists. exists d. split; [done|].
           by apply Qle_bool_iff.
      * left. exists d. by rewrite Hd.
  - intros q1 q2 Hq. rewrite !getBulkPrice_unfold.
    pose proof (applicable_from_mono q1 q2 0 (bulkDiscounts this) Hq) as Hm.
    set (a1 := applicable_from q1 0 (bulkDiscounts this)) in *.
    set (a2 := applicable_from q2 0 (bulkDiscounts this)) in *.
    assert (0 <= price this * (a2 - a1)) by (apply Qmult_le_0_compat; lra).
    lra.
  - intros q. rewrite getBulkPrice_unfold.
    destruct (applicable_from_range q this Hrange) as [Hge Hle].
    set (a := applicable_from q 0 (bulkDiscounts this)) in *.
    assert (0 <= price this * (100 - a)) by (apply Qmult_le_0_compat; lra).
    assert (0 <= price this * a) by (by apply Qmult_le_0_compat).
    split; lra.
  - intros q. apply getBulkPrice_no_discount.
  - intros q. rewrite getBulkPrice_unfold.
    destruct (applicable_from_range q this Hrange) as [Hge Hle]. split.
    + intros Heq.
      assert (Hprod : price this * applicable_from q 0 (bulkDiscounts this)
                      == 0) by lra.
      apply Qmult_integral in Hprod as [Hz|Hz]; [by left|right].
      intros d Hin Hmet.
      pose proof (applicable_from_upper q _ 0 d Hin Hmet) as Hup.
      destruct (Hrange d Hin) as [Hd _]. rewrite Hz in Hup.
      by apply Qle_antisym.
    + intros [Hz|Hall].
      * rewrite Hz. ring.
      * destruct (applicable_from_attained q (bulkDiscounts this) 0)
          as [->|(d & Hin & Hmet & ->)]; [ring|].
        rewrite (Hall d Hin Hmet). ring.
Qed.

Lemma getBulkPrice_properties_witness :
  getBulkPrice 60 tiered <= getBulkPrice 25 tiered /\
  getBulkPrice 25 tiered <= getBulkPrice 5 tiered /\
  getBulkPrice 5 tiered == price tiered.
Proof.
  assert (Hp : 0 <= price tiered) by (by compute).
  assert (Hr : percentages_in_range tiered).
  { intros d Hd. unfold tiered in Hd. simpl in Hd.
    repeat (apply elem_of_cons in Hd as [->|Hd]);
      [split; by compute..|by apply not_elem_of_nil in Hd]. }
  destruct (getBulkPrice_properties tiered Hp Hr)
    as (_ & Hmono & _ & Hnone & _).
  split_and!.
  - apply Hmono. by compute.
  - apply Hmono. by compute.
  - apply Hnone. intros d Hd. unfold tiered in Hd. simpl in Hd. unfold met.
    repeat (apply elem_of_cons in Hd as [->|Hd]);
      [by compute..|by apply not_elem_of_nil in Hd].
Defined.

(** ** Listing the discounts in another order *)

Lemma applicable_from_le_same_members q ds ds' :
  (forall d, d ∈ ds -> d ∈ ds') ->
  applicable_from q 0 ds <= applicable_from q 0 ds'.
Proof.
  intros Hsub.
  destruct (applicable_from_attained q ds 0) as [->|(d & Hin & Hmet & ->)].
  - apply applicable_from_ge_start.
  - apply applicable_from_upper; [by apply Hsub|done].
Qed.

(** X16: the bulk price does not depend on how [bulkDiscounts] is listed: two
    products with the same price and the same discounts, in whatever order
    and however often repeated, have the same bulk price for every
    quantity. *)
Theorem getBulkPrice_same_discounts (this this' : Product) (quantity : Q) :
  price this == price this' ->
  (forall d, d ∈ bulkDiscounts this <-> d ∈ bulkDiscounts this') ->
  getBulkPrice quantity this == getBulkPrice quantity this'.
Proof.
  intros Hprice Hmem. rewrite !getBulkPrice_unfold.
  assert (Ha : applicable_from quantity 0 (bulkDiscounts this)
               == applicable_from quantity 0 (bulkDiscounts this')).
  { apply Qle_antisym; apply applicable_from_le_same_members;
      intros d; apply Hmem. }
  by rewrite Hprice, Ha.
Qed.

Lemma getBulkPrice_same_discounts_witness :
  getBulkPrice 30 tiered
  == getBulkPrice 30
       {| price := 200;
          bulkDiscounts := [mkBulkDiscount 50 20; mkBulkDiscount 20 10;
                            mkBulkDiscount 10 5] |}.
Proof.
  apply getBulkPrice_same_discounts; [reflexivity|].
  intros d. unfold tiered. simpl. rewrite !elem_of_cons. tauto.
Defined.

End ProductFacts.

(** * Properties of ratings *)

Module RatingFacts.

Import Rating.

Local Open Scope Q_scope.

Lemma inject_Z_nonzero (n : Z) : n <> 0%Z -> ~ inject_Z n == 0.
Proof.
  intros Hn H. apply Hn. change 0 with (inject_Z 0) in H.
  by rewrite inject_Z_injective in H.
Qed.

Lemma mean_of_updateRating this s x :
  mean_of this s ->
  exists this', updateRating x this = Some this' /\
    totalRatings this' = (totalRatings this + 1)%Z /\
    mean_of this' (s + x).
Proof.
  intros (Hn & Hs). unfold updateRating.
  replace (totalRatings this + 1 =? 0)%Z with false
    by (symmetry; apply Z.eqb_neq; lia).
  eexists. split; [reflexivity|]. split; [reflexivity|].
  unfold mean_of. simpl. split; [lia|].
  replace (totalRatings this + 1 - 1)%Z with (totalRatings this) by lia.
  rewrite <- Hs. field. apply inject_Z_nonzero. lia.
Qed.

Lemma rate_all_cons x xs this :
  rate_all (x :: xs) this = updateRating x this ≫= rate_all xs.
Proof.
  unfold rate_all. simpl. destruct (updateRating x this) as [this'|]; [done|].
  simpl. induction xs as [|y xs IH]; [done|]. simpl. exact IH.
Qed.

Lemma mean_of_rate_all xs : forall this s,
  mean_of this s ->
  exists this', rate_all xs this = Some this' /\
    totalRatings this' = (totalRatings this + Z.of_nat (length xs))%Z /\
    mean_of this' (s + sum_ratings xs).
Proof.
  induction xs as [|x xs IH]; intros this s Hm.
  - exists this. split; [done|]. split; [simpl; lia|].
    destruct Hm as (Hn & Hs). split; [done|]. rewrite Hs. simpl. ring.
  - destruct (mean_of_updateRating _ _ x Hm) as (this1 & H1 & Hn1 & Hm1).
    destruct (IH _ _ Hm1) as (this' & H' & Hn' & Hm').
    exists this'. rewrite rate_all_cons, H1. simpl. split; [done|].
    split; [rewrite Hn', Hn1; simpl length; lia|].
    destruct Hm' as (Hn & Hs). split; [done|]. rewrite Hs. simpl. ring.
Qed.

Lemma sum_ratings_Permutation xs ys :
  xs ≡ₚ ys -> sum_ratings xs == sum_ratings ys.
Proof.
  induction 1 as [|x l l' _ IH|x y l|l l' l'' _ IH1 _ IH2]; simpl.
  - reflexivity.
  - by rewrite IH.
  - ring.
  - by rewrite IH1.
Qed.

Lemma updateRating_between (this : Rated) (lo hi newRating : Q) :
  (0 <= totalRatings this)%Z ->
  lo <= rating this -> rating this <= hi ->
  lo <= newRating -> newRating <= hi ->
  exists this', updateRating newRating this = Some this' /\
                lo <= rating this' /\ rating this' <= hi.
Proof.
  intros Hn Hlo Hhi Hxlo Hxhi. unfold updateRating.
  replace (totalRatings this + 1 =? 0)%Z with false
    by (symmetry; apply Z.eqb_neq; lia).
  eexists. split; [reflexivity|]. simpl.
  replace (totalRatings this + 1 - 1)%Z with (totalRatings this) by lia.
  assert (Hq : 0 <= inject_Z (totalRatings this)).
  { change 0 with (inject_Z 0). by rewrite <- Zle_Qle. }
  assert (Hq1 : inject_Z (totalRatings this + 1)
                == inject_Z (totalRatings this) + 1).
  { by rewrite inject_Z_plus. }
  assert (Hpos : 0 < inject_Z (totalRatings this + 1)) by (rewrite Hq1; lra).
  pose proof (Qmult_le_0_compat _ _
                (proj1 (Qle_minus_iff lo (rating this)) Hlo) Hq).
  pose proof (Qmult_le_0_compat _ _
                (proj1 (Qle_minus_iff (rating this) hi) Hhi) Hq).
  split.
  - apply Qle_shift_div_l; [done|]. rewrite Hq1. lra.
  - apply Qle_shift_div_r; [done|]. rewrite Hq1. lra.
Qed.

(** X12: the rating is the running mean. On a document whose rating [r] is
    finite over a count [n] of 0 or more, after the ratings of a list the
    count is [n] plus their number and the rating is finite and equals
    [(r * n + their sum)] over the new count; on the defaults it is the mean
    of the list. Ratings are taken as exact rationals. *)
Theorem updateRating_running_mean (this : Rated) (xs : list Q) :
  (0 <= totalRatings this)%Z ->
  xs <> [] ->
  (exists this', rate_all xs this = Some this' /\
     totalRatings this' = (totalRatings this + Z.of_nat (length xs))%Z /\
     rating this'
     == (rating this * inject_Z (totalRatings this) + sum_ratings xs)
        / inject_Z (totalRatings this + Z.of_nat (length xs))) /\
  (exists rated, rate_all xs unrated = Some rated /\
     totalRatings rated = Z.of_nat (length xs) /\
     rating rated == sum_ratings xs / inject_Z (Z.of_nat (length xs))).
Proof.
  intros Hn Hxs.
  assert (Hlen : (0 < Z.of_nat (length xs))%Z) by (destruct xs; [done|simpl; lia]).
  split.
  - destruct (mean_of_rate_all xs this
                (rating this * inject_Z (totalRatings this)))
      as (this' & H' & Hn' & _ & Hs).
    { split; [done|reflexivity]. }
    exists this'. split_and!; [done..|].
    rewrite Hn' in Hs. rewrite <- Hs. field.
    apply inject_Z_nonzero. lia.
  - destruct (mean_of_rate_all xs unrated 0) as (rated & H' & Hn' & _ & Hs).
    { split; [done|reflexivity]. }
    exists rated. simpl in Hn'. split_and!; [done..|].
    rewrite Hn' in Hs.
    assert (Hs' : rating rated * inject_Z (Z.of_nat (length xs))
                  == sum_ratings xs).
    { rewrite Hs. ring. }
    rewrite <- Hs'. field. apply inject_Z_nonzero. lia.
Qed.

Lemma updateRating_running_mean_witness :
  exists rated, rate_all [4; 5; 3] unrated = Some rated /\ rating rated == 4.
Proof.
  destruct (updateRating_running_mean unrated [4; 5; 3]
              ltac:(simpl; lia) ltac:(discriminate))
    as (_ & rated & Hr & _ & Hmean).
  exists rated. split; [exact Hr|]. rewrite Hmean. reflexivity.
Defined.

(** X13: a rating stays within the bounds of the schema: when the rating,
    over a count of 0 or more, and the new rating lie between 0 and 5, so
    does the rating after the update. Ratings are taken as exact
    rationals. *)
Theorem updateRating_in_range (this : Rated) (newRating : Q) :
  (0 <= totalRatings this)%Z ->
  0 <= rating this <= 5 ->
  0 <= newRating <= 5 ->
  exists this', updateRating newRating this = Some this' /\
                0 <= rating this' <= 5.
Proof.
  intros Hn [Hlo Hhi] [Hxlo Hxhi].
  destruct (updateRating_between this 0 5 newRating Hn Hlo Hhi Hxlo Hxhi)
    as (this' & H' & Hlo' & Hhi').
  by exists this'.
Qed.

Lemma updateRating_in_range_witness :
  exists this', updateRating 5 (mkRated 4 3) = Some this' /\
                0 <= rating this' <= 5.
Proof.
  apply (updateRating_in_range (mkRated 4 3) 5); by compute.
Defined.

(** X14: with the ratings taken as exact rationals, the order in which they
    are given does not matter: two lists with the same ratings in another
    order lead, from the same rating over a count of 0 or more, to the same
    count and the same rating. (On the floating-point numbers of the code the
    two ratings can differ by the rounding of the steps.) *)
Theorem rate_all_Permutation (this : Rated) (xs ys : list Q) :
  (0 <= totalRatings this)%Z ->
  xs ≡ₚ ys ->
  exists rated_xs rated_ys,
    rate_all xs this = Some rated_xs /\
    rate_all ys this = Some rated_ys /\
    totalRatings rated_xs = totalRatings rated_ys /\
    rating rated_xs == rating rated_ys.
Proof.
  intros Hn Hperm.
  assert (Hm : mean_of this (rating this * inject_Z (totalRatings this))).
  { split; [done|reflexivity]. }
  destruct (mean_of_rate_all xs _ _ Hm) as (tx & Hx & Hnx & _ & Hsx).
  destruct (mean_of_rate_all ys _ _ Hm) as (ty & Hy & Hny & _ & Hsy).
  exists tx, ty. split_and!; [done..| |].
  - rewrite Hnx, Hny. by rewrite (Permutation_length Hperm).
  - destruct ys as [|y ys].
    + apply Permutation_nil_r in Hperm. subst xs.
      unfold rate_all in *. simpl in *. congruence.
    + rewrite (sum_ratings_Permutation _ _ Hperm), <- Hsy in Hsx.
      rewrite Hnx, Hny, (Permutation_length Hperm) in Hsx.
      apply Qmult_inj_r in Hsx; [done|].
      apply inject_Z_nonzero. simpl length. lia.
Qed.

Lemma rate_all_Permutation_witness :
  exists rated_xs rated_ys,
    rate_all [4; 5] unrated = Some rated_xs /\
    rate_all [5; 4] unrated = Some rated_ys /\
    totalRatings rated_xs = totalRatings rated_ys /\
    rating rated_xs == rating rated_ys.
Proof.
  apply (rate_all_Permutation unrated [4; 5] [5; 4] ltac:(simpl; lia)
           (Permutation_swap _ _ _)).
Defined.

End RatingFacts.

(** * Properties of the authentication middleware *)

Module AuthFacts.

Import Auth.

Local Open Scope Z_scope.

Lemma split_not_nil sep s : split sep s <> [].
Proof.
  destruct s as [|c rest]; simpl; [done|].
  destruct (Ascii.eqb c sep); [done|]. by destruct (split sep rest).
Qed.

Lemma split_space_free w : space_free w = true -> split " " w = [w].
Proof.
  induction w as [|c w IH]; simpl; [done|].
  intros [Hc Hw]%andb_prop. apply negb_true_iff in Hc.
  by rewrite Hc, (IH Hw).
Qed.

Lemma split_word w rest :
  space_free w = true ->
  split " " (w +:+ String " " rest) = w :: split " " rest.
Proof.
  induction w as [|c w IH]; simpl; [done|].
  intros [Hc Hw]%andb_prop. apply negb_true_iff in Hc.
  change (String c w +:+ String " " rest)
    with (String c (w +:+ String " " rest)).
  simpl. by rewrite Hc, (IH Hw).
Qed.

Lemma bearer_token_word w rest :
  space_free w = true ->
  bearer_token (Some (w +:+ String " " rest))
  = match split " " rest with
    | token :: _ => if bool_decide (token = "") then None else Some token
    | [] => None
    end.
Proof.
  intros Hw. unfold bearer_token. rewrite (split_word _ _ Hw). simpl.
  by destruct (split " " rest).
Qed.

(** X17: the word before the token is not looked at, nor is anything after
    the token: a header made of any word without space, a space, the token
    and possibly a space and more is treated as "Bearer" followed by the
    token. *)
Theorem authenticateToken_scheme_ignored
    (verify : string -> Settled (option string))
    (findById : option string -> Settled (option User))
    (scheme token more : string) :
  space_free scheme = true -> space_free token = true ->
  authenticateToken verify findById (Some (scheme +:+ " " +:+ token))
    = authenticateToken verify findById (Some ("Bearer " +:+ token)) /\
  authenticateToken verify findById
      (Some (scheme +:+ " " +:+ token +:+ " " +:+ more))
    = authenticateToken verify findById (Some ("Bearer " +:+ token)).
Proof.
  intros Hs Ht. unfold authenticateToken.
  change ("Bearer " +:+ token) with ("Bearer" +:+ String " " token).
  change (scheme +:+ " " +:+ token) with (scheme +:+ String " " token).
  change (scheme +:+ " " +:+ token +:+ " " +:+ more)
    with (scheme +:+ String " " (token +:+ String " " more)).
  rewrite !bearer_token_word by done.
  by rewrite (split_word _ _ Ht), (split_space_free _ Ht).
Qed.

Lemma authenticateToken_scheme_ignored_witness :
  authenticateToken (fun _ => Fulfilled (Some "u1"))
    (fun _ => Fulfilled (Some (mkUser "u1" "vendor" true)))
    (Some "Basic abc.def.ghi")
  = Next (mkUser "u1" "vendor" true).
Proof.
  rewrite (proj1 (authenticateToken_scheme_ignored _ _ "Basic" "abc.def.ghi"
                    "" eq_refl eq_refl)).
  reflexivity.
Defined.

(** X18: [next()] is called exactly when the second word of the header is not
    empty, is accepted by [jwt.verify], and its [userId] is that of a user in
    the database; that user is then the one put on the request. *)
Theorem authenticateToken_next
    (verify : string -> Settled (option string))
    (findById : option string -> Settled (option User))
    (authorization : option string) (user : User) :
  authenticateToken verify findById authorization = Next user <->
  exists authHeader token userId,
    authorization = Some authHeader /\
    split " " authHeader !! 1%nat = Some token /\ token <> "" /\
    verify token = Fulfilled userId /\
    findById userId = Fulfilled (Some user).
Proof.
  unfold authenticateToken, bearer_token. split.
  - destruct authorization as [authHeader|]; [|done].
    destruct (split " " authHeader !! 1%nat) as [token|] eqn:Htok; [|done].
    case_bool_decide as Hne; [done|].
    destruct (verify token) as [userId|] eqn:Hv; [|done].
    destruct (findById userId) as [[u|]|] eqn:Hf; try done.
    intros [= ->]. by exists authHeader, token, userId.
  - intros (authHeader & token & userId & -> & Htok & Hne & Hv & Hf).
    rewrite Htok, (bool_decide_eq_false_2 _ Hne), Hv, Hf. done.
Qed.

(** X19: without a token nothing is verified: when the header is missing, has
    no space, or has two spaces after its first word, the answer is 401
    "Access token required", whatever [jwt.verify] and the database would
    say. *)
Theorem authenticateToken_no_token
    (verify : string -> Settled (option string))
    (findById : option string -> Settled (option User))
    (word more : string) :
  space_free word = true ->
  authenticateToken verify findById None
    = Json 401 "Access token required" /\
  authenticateToken verify findById (Some word)
    = Json 401 "Access token required" /\
  authenticateToken verify findById (Some (word +:+ "  " +:+ more))
    = Json 401 "Access token required".
Proof.
  intros Hw. unfold authenticateToken. split_and!.
  - done.
  - unfold bearer_token. by rewrite (split_space_free _ Hw).
  - change (word +:+ "  " +:+ more)
      with (word +:+ String " " (String " " more)).
    by rewrite (bearer_token_word _ _ Hw).
Qed.

Lemma authenticateToken_no_token_witness :
  authenticateToken (fun _ => Fulfilled (Some "u1"))
    (fun _ => Fulfilled (Some (mkUser "u1" "vendor" true)))
    (Some "Bearer  abc.def.ghi")
  = Json 401 "Access token required".
Proof.
  apply (proj2 (proj2 (authenticateToken_no_token _ _ "Bearer" "abc.def.ghi"
                         eq_refl))).
Defined.

(** X20: the role guards let a user through unchanged and only with the role
    they name; no user passes both [requireVendor] and [requireSupplier], and
    a route behind [authenticateToken] and [requireSupplier] is reached only
    by the authenticated user when that user is a supplier. *)
Theorem role_guards
    (verify : string -> Settled (option string))
    (findById : option string -> Settled (option User))
    (authorization : option string) (user passed : User) :
  (requireVendor user = Next passed <->
   passed = user /\ userType user = "vendor") /\
  (requireSupplier user = Next passed <->
   passed = user /\ userType user = "supplier") /\
  (requireVerified user = Next passed <->
   passed = user /\ isVerified user = true) /\
  ~ (requireVendor user = Next user /\ requireSupplier user = Next user) /\
  (and_then (authenticateToken verify findById authorization) requireSupplier
     = Next passed <->
   authenticateToken verify findById authorization = Next passed /\
   userType passed = "supplier").
Proof.
  unfold requireVendor, requireSupplier, requireVerified. split_and!.
  - case_bool_decide as H; split; try done.
    + by intros [_ ?].
    + intros [= <-]. split; [done|].
      by destruct (decide (userType user = "vendor")).
    + by intros [-> _].
  - case_bool_decide as H; split; try done.
    + by intros [_ ?].
    + intros [= <-]. split; [done|].
      by destruct (decide (userType user = "supplier")).
    + by intros [-> _].
  - destruct (isVerified user); simpl; split; try done.
    + by intros [= <-].
    + by intros [-> _].
    + by intros [_ ?].
  - intros [Hv Hs]. do 2 case_bool_decide; try done.
    assert (userType user = "vendor")
      by by destruct (decide (userType user = "vendor")).
    assert (userType user = "supplier")
      by by destruct (decide (userType user = "supplier")).
    congruence.
  - destruct (authenticateToken verify findById authorization) as [st msg|u];
      simpl.
    + split; [done|]. by intros [? _].
    + case_bool_decide as H; split; try done.
      * intros [[= ->] ?]. done.
      * intros [= ->]. split; [done|].
        by destruct (decide (userType passed = "supplier")).
      * by intros [[= ->] _].
Qed.

Lemma authenticateToken_next_witness :
  authenticateToken (fun _ => Fulfilled (Some "u1"))
    (fun _ => Fulfilled (Some (mkUser "u1" "supplier" true)))
    (Some "Bearer abc.def.ghi")
  = Next (mkUser "u1" "supplier" true).
Proof.
  apply (proj2 (authenticateToken_next _ _ _ _)).
  exists "Bearer abc.def.ghi", "abc.def.ghi", (Some "u1").
  split_and!; try reflexivity. discriminate.
Defined.

End AuthFacts.

(** * Properties of the products routes *)

Module ProductsRouteFacts.

Import Auth ProductsRoute.

Local Open Scope Z_scope.

(** ** Paging *)

Lemma pages_least (total limit : Z) :
  1 <= limit -> 0 <= total ->
  0 <= pages total limit /\
  total <= pages total limit * limit /\
  (pages total limit - 1) * limit < total /\
  (pages total limit = 0 <-> total = 0) /\
  (forall p, 1 <= p -> ((p - 1) * limit < total <-> p <= pages total limit)).
Proof.
  intros Hl Ht. unfold pages.
  pose proof (Z.div_mod (- total) limit ltac:(lia)) as Hdm.
  pose proof (Z.mod_pos_bound (- total) limit ltac:(lia)) as Hm.
  set (q := - total / limit) in *. set (r := (- total) mod limit) in *.
  split_and!; nia.
Qed.

(** X22: for a limit of 1 or more and a total of 0 or more, the number of
    pages is the least number of pages of [limit] products that hold [total]
    products: it is 0 exactly when there is no product, and for a page from 1
    the skip is below the total exactly when the page is at most that
    number. *)
Theorem pages_cover_total (total limit : Z) :
  1 <= limit -> 0 <= total ->
  0 <= pages total limit /\
  total <= pages total limit * limit /\
  (pages total limit - 1) * limit < total /\
  (pages total limit = 0 <-> total = 0) /\
  (forall p, 1 <= p -> ((p - 1) * limit < total <-> p <= pages total limit)).
Proof. apply pages_least. Qed.

Lemma pages_cover_total_witness :
  pages 45 20 = 3 /\ pages 40 20 = 2 /\ pages 0 20 = 0.
Proof.
  destruct (pages_cover_total 45 20 ltac:(lia) ltac:(lia)) as (H0 & H1 & H2 & _).
  split_and!; [lia|reflexivity|reflexivity].
Defined.

Lemma concat_pages {A : Type} (results : list A) (limit : Z) (k : nat) :
  1 <= limit ->
  concat (page_items results limit <$> seq 1 k)
  = take (k * Z.to_nat limit) results.
Proof.
  intros Hl. induction k as [|k IH]; [done|].
  rewrite seq_S, fmap_app, concat_app, IH. simpl.
  rewrite app_nil_r. unfold page_items, find_page.
  replace (Z.to_nat ((Z.of_nat (S k) - 1) * limit))
    with (k * Z.to_nat limit)%nat by nia.
  rewrite take_take_drop. f_equal. lia.
Qed.

(** X23: the pages partition the results: for a limit of 1 or more, the
    pages 1 to [pages(total, limit)], each the [limit] results after [skip],
    put one after the other give the whole list of results, each once and in
    order; no page holds more than [limit] products and a page after the last
    is empty. *)
Theorem pages_partition {A : Type} (results : list A) (limit : Z) :
  1 <= limit ->
  let total := Z.of_nat (length results) in
  concat (page_items results limit <$> seq 1 (Z.to_nat (pages total limit)))
    = results /\
  (forall p, Z.of_nat (length (page_items results limit p)) <= limit) /\
  (forall p, pages total limit < Z.of_nat p ->
             page_items results limit p = []).
Proof.
  intros Hl. cbv zeta.
  destruct (pages_least (Z.of_nat (length results)) limit Hl ltac:(lia))
    as (Hp0 & Hcover & _ & _ & Hskip).
  split_and!.
  - rewrite concat_pages by done. apply take_ge. nia.
  - intros p. unfold page_items, find_page. rewrite length_take. lia.
  - intros p Hp. unfold page_items, find_page.
    rewrite drop_ge; [by rewrite take_nil|].
    assert (~ (Z.of_nat p - 1) * limit < Z.of_nat (length results)).
    { rewrite Hskip by lia. lia. }
    nia.
Qed.

Lemma pages_partition_witness :
  concat (page_items [1; 2; 3; 4; 5] 2 <$> [1; 2; 3]%nat) = [1; 2; 3; 4; 5] /\
  page_items [1; 2; 3; 4; 5] 2 3 = [5].
Proof.
  split; [|reflexivity].
  exact (proj1 (pages_partition [1; 2; 3; 4; 5] 2 ltac:(lia))).
Defined.

(** ** The fields an update may touch *)

Lemma lookup_build_from (body : gmap string Value) (fields : list string)
    (f : string) : forall start : gmap string Value,
  foldl (fun updates field =>
           match body !! field with
           | Some v => <[field := v]> updates
           | None => updates
           end) start fields !! f
  = if bool_decide (f ∈ fields)
    then match body !! f with
         | Some v => Some v
         | None => start !! f
         end
    else start !! f.
Proof.
  induction fields as [|x fields IH]; intros start; simpl; [done|].
  rewrite IH. destruct (decide (f = x)) as [->|Hne].
  - rewrite (bool_decide_eq_true_2 (x ∈ x :: fields))
      by apply list_elem_of_here.
    destruct (body !! x) as [v|] eqn:Hx.
    + rewrite lookup_insert_eq. by case_bool_decide.
    + by case_bool_decide.
  - assert (Hiff : bool_decide (f ∈ x :: fields) = bool_decide (f ∈ fields)).
    { apply bool_decide_ext. rewrite elem_of_cons. tauto. }
    rewrite Hiff.
    destruct (body !! x) as [v|]; [|done].
    by rewrite lookup_insert_ne.
Qed.

(** X24: [updates] holds the fields of the body that are on the list of
    allowed updates, with the body's values, and nothing else: a field that
    is not on the list ([supplier], [category], [unit], [rating],
    [totalSold], ...) never gets into an update, and filtering a second time
    changes nothing. *)
Theorem build_updates_allowed (body : gmap string Value) :
  (forall f, build_updates body !! f
             = if bool_decide (f ∈ allowedUpdates) then body !! f else None) /\
  build_updates body !! "supplier" = None /\
  build_updates body !! "category" = None /\
  build_updates body !! "rating" = None /\
  build_updates (build_updates body) = build_updates body.
Proof.
  assert (Hl : forall b f, build_updates b !! f
               = if bool_decide (f ∈ allowedUpdates) then b !! f else None).
  { intros b f. unfold build_updates. rewrite lookup_build_from.
    rewrite lookup_empty. case_bool_decide; [|done]. by destruct (b !! f). }
  split_and!.
  - apply Hl.
  - by rewrite Hl.
  - by rewrite Hl.
  - by rewrite Hl.
  - apply map_eq. intros f. rewrite !Hl. by case_bool_decide.
Qed.

(** ** Who may update and delete *)

Lemma owned_by_true user product :
  owned_by user product = Some true ->
  product !! "supplier" = Some (Str (_id user)).
Proof.
  unfold owned_by.
  destruct (product !! "supplier") as [[| | |s| |]|]; try done.
  case_bool_decide; [by subst|done].
Qed.

Lemma not_allowed_supplier : "supplier" ∉ allowedUpdates.
Proof.
  unfold allowedUpdates. intros H.
  repeat (apply elem_of_cons in H as [H|H]; [discriminate|]).
  by apply not_elem_of_nil in H.
Qed.

Lemma not_allowed_updatedAt : "updatedAt" ∉ allowedUpdates.
Proof.
  unfold allowedUpdates. intros H.
  repeat (apply elem_of_cons in H as [H|H]; [discriminate|]).
  by apply not_elem_of_nil in H.
Qed.

Lemma lookup_build_updates (body : gmap string Value) f :
  build_updates body !! f
  = if bool_decide (f ∈ allowedUpdates) then body !! f else None.
Proof.
  unfold build_updates. rewrite lookup_build_from, lookup_empty.
  case_bool_decide; [|done]. by destruct (body !! f).
Qed.

Lemma put_product_spec isObjectId validates cast now user id body store :
  let r := put_product isObjectId validates cast now user id body store in
  (fst r = Json 200 "Product updated successfully" /\
   exists product,
     store !! id = Some product /\
     product !! "supplier" = Some (Str (_id user)) /\
     snd r = <[id := <["updatedAt" := now]>
                       (map_imap (fun f v => Some (cast f v))
                          (build_updates body) ∪ product)]>
               store) \/
  (fst r <> Json 200 "Product updated successfully" /\ snd r = store).
Proof.
  cbv zeta. unfold put_product.
  destruct (isObjectId id); simpl; [|by right].
  destruct (store !! id) as [product|] eqn:Hp; [|by right].
  destruct (owned_by user product) as [[|]|] eqn:Ho; try by right.
  destruct (validates _); simpl; [|by right].
  left. split; [done|]. exists product.
  split_and!; [done| |done]. by apply owned_by_true.
Qed.

(** X25: a product is updated only by the supplier it belongs to. Whatever
    the header, the id and the body, the route [PUT /:id] leaves every other
    product as it is; it changes the product only when the token
    authenticates a supplier whose id is the product's [supplier], and then
    only fields on the list of allowed updates and [updatedAt]: the
    [supplier] of a product never changes. In every other case the
    collection is as before. *)
Theorem put_route_owner_only
    (isObjectId : string -> bool) (validates : gmap string Value -> bool)
    (cast : string -> Value -> Value)
    (verify : string -> Settled (option string))
    (findById : option string -> Settled (option User))
    (now : Value) (authorization : option string) (id : string)
    (body : gmap string Value) (store : gmap string (gmap string Value)) :
  let r := put_route isObjectId validates cast verify findById now
             authorization id body store in
  (forall other, other <> id -> snd r !! other = store !! other) /\
  (snd r = store \/
   exists user product,
     authenticateToken verify findById authorization = Next user /\
     userType user = "supplier" /\
     store !! id = Some product /\
     product !! "supplier" = Some (Str (_id user)) /\
     fst r = Json 200 "Product updated successfully" /\
     exists product',
       snd r !! id = Some product' /\
       product' !! "supplier" = product !! "supplier" /\
       (forall f, f ∉ allowedUpdates -> f <> "updatedAt" ->
                  product' !! f = product !! f) /\
       (forall f v, f ∈ allowedUpdates -> body !! f = Some v ->
                    product' !! f = Some (cast f v))).
Proof.
  cbv zeta. unfold put_route.
  destruct (authenticateToken verify findById authorization) as [st msg|user]
    eqn:Hauth; simpl.
  { split; [done|by left]. }
  unfold requireSupplier. case_bool_decide as Hrole; simpl.
  { split; [done|by left]. }
  assert (Hsupplier : userType user = "supplier")
    by by destruct (decide (userType user = "supplier")).
  destruct (put_product_spec isObjectId validates cast now user id body store)
    as [(Hok & product & Hp & Hown & Hstore)|[_ Hsame]].
  - rewrite Hstore. split.
    + intros other Hne. by rewrite lookup_insert_ne.
    + right. exists user, product. split_and!; try done.
      eexists. split; [apply lookup_insert_eq|]. split_and!.
      * rewrite lookup_insert_ne by done.
        rewrite lookup_union_r; [done|].
        rewrite map_lookup_imap, lookup_build_updates.
        by rewrite (bool_decide_eq_false_2 _ not_allowed_supplier).
      * intros f Hf Hne. rewrite lookup_insert_ne by done.
        rewrite lookup_union_r; [done|].
        rewrite map_lookup_imap, lookup_build_updates.
        by rewrite (bool_decide_eq_false_2 _ Hf).
      * intros f v Hf Hv.
        assert (f <> "updatedAt").
        { intros ->. by apply not_allowed_updatedAt. }
        rewrite lookup_insert_ne by done.
        apply lookup_union_Some_l.
        rewrite map_lookup_imap, lookup_build_updates.
        by rewrite (bool_decide_eq_true_2 _ Hf), Hv.
  - rewrite Hsame. split; [done|by left].
Qed.

Lemma delete_product_spec isObjectId user id store :
  let r := delete_product isObjectId user id store in
  (fst r = Json 200 "Product deleted successfully" /\
   exists product,
     store !! id = Some product /\
     product !! "supplier" = Some (Str (_id user)) /\
     snd r = delete id store) \/
  (fst r <> Json 200 "Product deleted successfully" /\ snd r = store).
Proof.
  cbv zeta. unfold delete_product.
  destruct (isObjectId id); simpl; [|by right].
  destruct (store !! id) as [product|] eqn:Hp; [|by right].
  destruct (owned_by user product) as [[|]|] eqn:Ho; try by right.
  left. split; [done|]. exists product.
  split_and!; [done| |done]. by apply owned_by_true.
Qed.

(** X26: a product is deleted only by the supplier it belongs to. The route
    [DELETE /:id] never touches another product; it removes the product only
    when the token authenticates a supplier whose id is the product's
    [supplier]; for a user who is not that supplier, for a vendor, without
    token and for an unknown id the collection is as before. *)
Theorem delete_route_owner_only
    (isObjectId : string -> bool)
    (verify : string -> Settled (option string))
    (findById : option string -> Settled (option User))
    (authorization : option string) (id : string)
    (store : gmap string (gmap string Value)) :
  let r := delete_route isObjectId verify findById authorization id store in
  (forall other, other <> id -> snd r !! other = store !! other) /\
  (snd r = store \/
   exists user product,
     authenticateToken verify findById authorization = Next user /\
     userType user = "supplier" /\
     store !! id = Some product /\
     product !! "supplier" = Some (Str (_id user)) /\
     fst r = Json 200 "Product deleted successfully" /\
     snd r = delete id store) /\
  (store !! id = None -> snd r = store /\
     fst r <> Json 200 "Product deleted successfully").
Proof.
  cbv zeta. unfold delete_route.
  destruct (authenticateToken verify findById authorization) as [st msg|user]
    eqn:Hauth; simpl.
  { split_and!; [done|by left|]. intros _. split; [done|].
    intros [= -> _].
    unfold authenticateToken in Hauth.
    destruct (bearer_token authorization); [|done].
    destruct (verify s) as [userId|]; [|done].
    by destruct (findById userId) as [[u|]|]. }
  unfold requireSupplier. case_bool_decide as Hrole; simpl.
  { split_and!; [done|by left|done]. }
  assert (Hsupplier : userType user = "supplier")
    by by destruct (decide (userType user = "supplier")).
  destruct (delete_product_spec isObjectId user id store)
    as [(Hok & product & Hp & Hown & Hstore)|[Hnot Hsame]].
  - rewrite Hstore. split_and!.
    + intros other Hne. by rewrite lookup_delete_ne.
    + right. by exists user, product.
    + intros Hnone. congruence.
  - rewrite Hsame. split_and!; [done|by left|done].
Qed.

Lemma put_route_owner_only_witness :
  let store : gmap string (gmap string Value) :=
    {[ "p1" := {[ "supplier" := Str "u1" ]};
       "p2" := {[ "supplier" := Str "u2" ]} ]} in
  snd (put_route (fun _ => true) (fun _ => true) (fun _ v => v)
         (fun _ => Fulfilled (Some "u1"))
         (fun _ => Fulfilled (Some (mkUser "u1" "supplier" true)))
         (Str "2024-05-01") (Some "Bearer abc") "p1"
         {[ "price" := Number 12; "supplier" := Str "u2" ]} store) !! "p2"
  = store !! "p2".
Proof.
  cbv zeta.
  refine (proj1 (put_route_owner_only _ _ _ _ _ _ _ "p1" _ _) "p2" _).
  discriminate.
Defined.

Lemma delete_route_owner_only_witness :
  let store : gmap string (gmap string Value) :=
    {[ "p1" := {[ "supplier" := Str "u1" ]};
       "p2" := {[ "supplier" := Str "u2" ]} ]} in
  snd (delete_route (fun _ => true)
         (fun _ => Fulfilled (Some "u1"))
         (fun _ => Fulfilled (Some (mkUser "u1" "supplier" true)))
         (Some "Bearer abc") "p1" store) !! "p2"
  = store !! "p2".
Proof.
  cbv zeta.
  refine (proj1 (delete_route_owner_only _ _ _ _ "p1" _) "p2" _).
  discriminate.
Defined.

End ProductsRouteFacts.
